(** * Audio-Processing: a shallow embedding of [audio_processor.py]

    The script is a linear pipeline: [load_audio], [resample_audio],
    [save_audio], [generate_waveform_gif], glued by [process_audio],
    [get_output_filenames] and [main].  Each function of the script is
    embedded below as a Rocq function over

    - Python values: [str] as a list of characters, [int] as [Z], [float]
      as an IEEE 754 binary64 value and numpy's [float32] as a binary32
      value (both through the Standard Library's [SpecFloat], so that the
      arithmetic of the script evaluates inside Rocq);
    - Python exceptions: a computation returns [inl exn] when it raises;
    - the libraries the script calls (pydub, librosa, numpy, matplotlib,
      [os.path]): the pure helpers of [os.path] and numpy are written out
      after their reference implementations, the audio codecs and the
      filesystem are parameters of the sections that use them. *)

From Stdlib Require Import ZArith List Bool Ascii String DecimalString Lia.
From Stdlib Require Import Floats.SpecFloat.
Import ListNotations.

Local Open Scope Z_scope.
Local Open Scope list_scope.

(** ** Python values *)

Module Py.

(** A Python [str]: a sequence of characters.  String literals are read
    through the coercion [of_string]. *)
Definition str := list ascii.

Definition of_string (s : string) : str := list_ascii_of_string s.

Coercion of_string : string >-> str.

(** The exception classes the script raises or meets. *)
Inductive exn_class :=
| FileNotFoundError
| ValueError
| ZeroDivisionError
| OverflowError
| OtherException (name : str).

(** An exception instance: its class and [str(e)]. *)
Record exn := Raise { exn_cls : exn_class; exn_msg : str }.

(** A computation either raises or returns. *)
Definition result (A : Type) : Type := (exn + A)%type.

Definition ret {A} (a : A) : result A := inr a.

Definition raise {A} (c : exn_class) (msg : str) : result A := inl (Raise c msg).

Definition bind {A B} (m : result A) (k : A -> result B) : result B :=
  match m with
  | inl e => inl e
  | inr a => k a
  end.

(** [try: m except Exception as e: h e] *)
Definition try_except {A} (m : result A) (h : exn -> result A) : result A :=
  match m with
  | inl e => h e
  | inr a => inr a
  end.

(** [len(l)] *)
Definition len {A} (l : list A) : Z := Z.of_nat (List.length l).

(** Slice bounds as CPython adjusts them ([PySlice_AdjustIndices], step 1):
    a negative index counts from the end, and both ends are clamped into
    [0 .. len]. *)
Definition adjust_index (n i : Z) : Z :=
  if i <? 0 then Z.max 0 (i + n) else Z.min i n.

(** [l[start:stop]]; never raises. *)
Definition slice {A} (l : list A) (start stop : Z) : list A :=
  let lo := adjust_index (len l) start in
  let hi := adjust_index (len l) stop in
  firstn (Z.to_nat (hi - lo)) (skipn (Z.to_nat lo) l).

(** [l[start:]] *)
Definition slice_from {A} (l : list A) (start : Z) : list A :=
  slice l start (len l).

(** [l[:stop]] *)
Definition slice_to {A} (l : list A) (stop : Z) : list A :=
  slice l 0 stop.

(** [s.rfind(c)] for a one-character needle: the highest index at which
    [c] occurs, or [-1]. *)
Fixpoint rfind_from (c : ascii) (s : str) (i last : Z) : Z :=
  match s with
  | [] => last
  | a :: s' => rfind_from c s' (i + 1) (if Ascii.eqb a c then i else last)
  end.

Definition rfind (s : str) (c : ascii) : Z := rfind_from c s 0 (-1).

(** [range(n)] *)
Definition range (n : nat) : list Z := map Z.of_nat (seq 0 n).

End Py.

Import Py.

Notation "x <- m ;; k" := (Py.bind m (fun x => k))
  (at level 61, m at next level, right associativity).

(** ** [os.path] on POSIX, after CPython's [posixpath] and [genericpath] *)

Module PosixPath.

Definition sep : ascii := "/"%char.

Definition extsep : ascii := "."%char.

(** [basename(p)]: [i = p.rfind(sep) + 1; return p[i:]] *)
Definition basename (p : str) : str :=
  let i := rfind p sep + 1 in
  slice_from p i.

(** The loop of [genericpath._splitext] that skips the leading dots of the
    last component: it answers whether some character in
    [p[filenameIndex:dotIndex]] differs from [extsep]. *)
Fixpoint has_non_dot (chars : str) : bool :=
  match chars with
  | [] => false
  | a :: rest => if Ascii.eqb a extsep then has_non_dot rest else true
  end.

(** [splitext(p)]: the extension starts at the last dot of the last
    component, leading dots excluded. *)
Definition splitext (p : str) : str * str :=
  let sepIndex := rfind p sep in
  let dotIndex := rfind p extsep in
  if (dotIndex >? sepIndex) && has_non_dot (slice p (sepIndex + 1) dotIndex)
  then (slice_to p dotIndex, slice_from p dotIndex)
  else (p, slice_to p 0).

End PosixPath.

(** ** Floating point: binary32 for numpy's [float32], binary64 for [float] *)

Module Float.

Definition float32 := spec_float.

Definition float64 := spec_float.

Definition prec32 : Z := 24.

Definition emax32 : Z := 128.

Definition prec64 : Z := 53.

Definition emax64 : Z := 1024.

(** Conversion of an integer, rounding to nearest even. *)
Definition of_Z32 (z : Z) : float32 := binary_normalize prec32 emax32 z 0 false.

Definition of_Z64 (z : Z) : float64 := binary_normalize prec64 emax64 z 0 false.

Definition mul32 : float32 -> float32 -> float32 := SFmul prec32 emax32.

Definition div32 : float32 -> float32 -> float32 := SFdiv prec32 emax32.

Definition mul64 : float64 -> float64 -> float64 := SFmul prec64 emax64.

Definition div64 : float64 -> float64 -> float64 := SFdiv prec64 emax64.

(** The decimal literal [1.1] read as a binary32 value: [1.1] lies between
    [9227468 / 2^23] and [9227469 / 2^23], nearer to the second. *)
Definition lit32_1_1 : float32 := S754_finite false 9227469 (-23).

Definition is_nan (x : spec_float) : bool :=
  match x with
  | S754_nan => true
  | _ => false
  end.

Definition is_finite (x : spec_float) : bool :=
  match x with
  | S754_zero _ | S754_finite _ _ _ => true
  | _ => false
  end.

Definition is_zero (x : spec_float) : bool :=
  match x with
  | S754_zero _ => true
  | _ => false
  end.

(** Truncation toward zero of a finite value; [None] for NaN and the
    infinities. *)
Definition trunc (x : spec_float) : option Z :=
  match x with
  | S754_zero _ => Some 0
  | S754_finite s m e => Some (cond_Zopp s (Z.shiftl (Zpos m) e))
  | S754_infinity _ | S754_nan => None
  end.

(** The smallest integer not below a finite value; [None] for NaN and the
    infinities. *)
Definition ceil (x : spec_float) : option Z :=
  match x with
  | S754_zero _ => Some 0
  | S754_finite s m e => Some (- Z.shiftl (cond_Zopp (negb s) (Zpos m)) e)
  | S754_infinity _ | S754_nan => None
  end.

End Float.

Import Float.

(** ** Python's numeric conversions *)

(** [float(n)], as in [n * x] for an int [n] and a float [x]. *)
Definition py_float_of_int (n : Z) : result float64 :=
  let x := of_Z64 n in
  if is_finite x then ret x
  else raise OverflowError (of_string "int too large to convert to float").

(** [int(x)] *)
Definition py_int_of_float (x : float64) : result Z :=
  match trunc x with
  | Some z => ret z
  | None =>
      if is_nan x
      then raise ValueError (of_string "cannot convert float NaN to integer")
      else raise OverflowError (of_string "cannot convert float infinity to integer")
  end.

(** [a / b] on two ints: it raises on a zero divisor.  The quotient of the
    converted operands is Python's correctly rounded quotient when both are
    below [2^53] in magnitude, which array lengths and sample rates are. *)
Definition py_truediv_int (a b : Z) : result float64 :=
  if b =? 0 then raise ZeroDivisionError (of_string "division by zero")
  else ret (div64 (of_Z64 a) (of_Z64 b)).

(** [n / x] for an int [n] and a float [x]. *)
Definition py_truediv_int_float (n : Z) (x : float64) : result float64 :=
  y <- py_float_of_int n ;;
  if is_zero x then raise ZeroDivisionError (of_string "float division by zero")
  else ret (div64 y x).

(** ** numpy *)

Module Np.

(** [np.minimum] and [np.maximum] on two elements: a NaN operand wins. *)
Definition minimum (a b : float32) : float32 :=
  if SFltb a b || is_nan a then a else b.

Definition maximum (a b : float32) : float32 :=
  if SFltb b a || is_nan a then a else b.

(** [np.min(a)] and [np.max(a)]: reductions without identity. *)
Definition min (a : list float32) : result float32 :=
  match a with
  | [] => raise ValueError
            (of_string "zero-size array to reduction operation minimum which has no identity")
  | x :: rest => ret (fold_left minimum rest x)
  end.

Definition max (a : list float32) : result float32 :=
  match a with
  | [] => raise ValueError
            (of_string "zero-size array to reduction operation maximum which has no identity")
  | x :: rest => ret (fold_left maximum rest x)
  end.

(** Two's complement reading of the low 16 bits. *)
Definition wrap_int16 (z : Z) : Z := (z + 32768) mod 65536 - 32768.

(** [x.astype(np.int16)] on one [float32] element: the C conversion to a
    16-bit integer.  A value that truncates into the 32-bit range is
    converted to 32 bits and keeps its low half; beyond that range (and for
    NaN and the infinities) the conversion instruction of x86-64 yields
    [-2^31], whose low half is [0]. *)
Definition astype_int16 (x : float32) : Z :=
  match trunc x with
  | Some z => if (-2147483648 <=? z) && (z <=? 2147483647) then wrap_int16 z else 0
  | None => 0
  end.

(** [a.tobytes()] of an [int16] array: two bytes per element, low byte
    first. *)
Definition int16_bytes (z : Z) : list Z := [z mod 256; (z / 256) mod 256].

Definition tobytes (a : list Z) : list Z := flat_map int16_bytes a.

End Np.

(** ** librosa *)

(** The number of samples that [librosa.resample(y, orig_sr=, target_sr=)]
    returns, as librosa computes it:
    [ratio = float(target_sr) / orig_sr] and
    [n_samples = int(np.ceil(y.shape[axis] * ratio))], in binary64. *)
Definition librosa_n_samples (n orig_sr target_sr : Z) : result Z :=
  t <- py_float_of_int target_sr ;;
  o <- py_float_of_int orig_sr ;;
  ratio <- (if is_zero o
            then raise ZeroDivisionError (of_string "float division by zero")
            else ret (div64 t o)) ;;
  size <- py_float_of_int n ;;
  let x := mul64 size ratio in
  match ceil x with
  | Some z => ret z
  | None =>
      if is_nan x
      then raise ValueError (of_string "cannot convert float NaN to integer")
      else raise OverflowError (of_string "cannot convert float infinity to integer")
  end.

(** ** pydub's [AudioSegment] *)

(** The decoded container: channel count, frame rate, bytes per sample and
    the interleaved integer samples that [get_array_of_samples] returns. *)
Record AudioSegment := {
  channels : Z;
  frame_rate : Z;
  sample_width : Z;
  get_array_of_samples : list Z
}.

(** [a.format]: pydub's [AudioSegment] keeps the sample data, the sample
    width, the frame rate and the channel count, and has no attribute
    [format]; the read raises. *)
Definition audio_format (a : AudioSegment) : result str :=
  raise (OtherException (of_string "AttributeError"))
    (of_string "'AudioSegment' object has no attribute 'format'").

(** What the script observes of the outside world. *)
Inductive event :=
| OsPathExists (path : str)
| AudioSegmentFromFile (path : str).

(** ** [get_output_filenames] *)

Definition get_output_filenames (input_path : str) : str * str :=
  let filename := fst (PosixPath.splitext (PosixPath.basename input_path)) in
  let audio_output :=
    of_string "sample_data/v2_" ++ filename ++ snd (PosixPath.splitext input_path) in
  let gif_output := of_string "sample_data/v2_" ++ filename ++ of_string ".gif" in
  (audio_output, gif_output).

(** ** [save_audio]: de-normalisation *)

(** [samples * (2**15)]: the Python int joins the array's [float32]. *)
Definition scale_up (samples : list float32) : list float32 :=
  map (fun x => mul32 x (of_Z32 (2 ^ 15))) samples.

(** [samples_int16 = (samples * (2**15)).astype(np.int16)] *)
Definition samples_int16 (samples : list float32) : list Z :=
  map Np.astype_int16 (scale_up samples).

(** The segment [save_audio] builds and hands to [export]: the bytes of
    [samples_int16], 16-bit, mono, at [sample_rate]. *)
Record raw_segment := {
  raw_data : list Z;
  raw_frame_rate : Z;
  raw_sample_width : Z;
  raw_channels : Z
}.

Definition save_audio_segment (samples : list float32) (sample_rate : Z) : raw_segment :=
  {| raw_data := Np.tobytes (samples_int16 samples);
     raw_frame_rate := sample_rate;
     raw_sample_width := 2;
     raw_channels := 1 |}.

(** ** [generate_waveform_gif]: the per-frame slice *)

(** What [update] hands to [line.set_data]. *)
Definition frame_data : Type := (list float64 * list float32)%type.

Definition frames : nat := 100.

(** [update(frame)] of [generate_waveform_gif], closed over [time],
    [samples] and [samples_per_frame]. *)
Definition update (time : list float64) (samples : list float32)
  (samples_per_frame : Z) (frame : Z) : frame_data :=
  let start_idx := frame * samples_per_frame in
  let end_idx := Z.min ((frame + 1) * samples_per_frame) (len samples) in
  (slice time start_idx end_idx, slice samples start_idx end_idx).

(** [ax.set_xlim] and [ax.set_ylim] refuse a NaN or infinite limit. *)
Definition validate_limit (x : spec_float) : result unit :=
  if is_finite x then ret tt
  else raise ValueError (of_string "Axis limits cannot be NaN or Inf").

(** The arguments of [ax.set_ylim]: [np.min(samples) * 1.1] and
    [np.max(samples) * 1.1].  The [float32] extremes keep their type in
    the product with the Python float. *)
Definition ylim (samples : list float32) : result (float32 * float32) :=
  lo <- Np.min samples ;;
  hi <- Np.max samples ;;
  ret (mul32 lo lit32_1_1, mul32 hi lit32_1_1).

(** The default [duration=5.0]. *)
Definition default_duration : float64 := of_Z64 5.

(** [frame_duration = duration / frames] *)
Definition frame_duration (duration : float64) : float64 :=
  div64 duration (of_Z64 (Z.of_nat frames)).

(** [samples_per_frame = int(sample_rate * frame_duration)] *)
Definition samples_per_frame (sample_rate : Z) (duration : float64) : result Z :=
  r <- py_float_of_int sample_rate ;;
  py_int_of_float (mul64 r (frame_duration duration)).

(** ** The pipeline over its libraries *)

Section Pipeline.

(** [os.path.exists]: the state of the filesystem. *)
Variable path_exists : str -> bool.

(** [AudioSegment.from_file]: the decoder; it raises on a file it cannot
    parse. *)
Variable from_file : str -> result AudioSegment.

(** [AudioSegment.set_channels] *)
Variable set_channels : AudioSegment -> Z -> result AudioSegment.

(** [librosa.resample(samples, orig_sr=..., target_sr=...)] *)
Variable librosa_resample : list float32 -> Z -> Z -> result (list float32).

(** [np.linspace(start, stop, num)] *)
Variable np_linspace : float64 -> float64 -> Z -> list float64.

(** [np.array(audio.get_array_of_samples(), dtype=np.float32) / (2**15)] *)
Definition normalize (array_of_samples : list Z) : list float32 :=
  map (fun z => div32 (of_Z32 z) (of_Z32 (2 ^ 15))) array_of_samples.

(** The body of the [try] block of [load_audio]. *)
Definition decode (file_path : str) : result (list float32 * Z * AudioSegment) :=
  audio <- from_file file_path ;;
  audio <- (if channels audio =? 2 then set_channels audio 1 else ret audio) ;;
  let samples := normalize (get_array_of_samples audio) in
  let sample_rate := frame_rate audio in
  ret (samples, sample_rate, audio).

(** [load_audio(file_path)]: the calls it makes to the outside world, in
    order, and its outcome. *)
Definition load_audio (file_path : str)
  : list event * result (list float32 * Z * AudioSegment) :=
  if negb (path_exists file_path) then
    ([OsPathExists file_path],
     raise FileNotFoundError (of_string "Audio file not found: " ++ file_path))
  else
    ([OsPathExists file_path; AudioSegmentFromFile file_path],
     try_except (decode file_path)
       (fun e => raise ValueError (of_string "Failed to load audio file: " ++ exn_msg e))).

(** [resample_audio(samples, orig_sr, target_sr)] *)
Definition resample_audio (samples : list float32) (orig_sr target_sr : Z)
  : result (list float32 * Z) :=
  if negb (orig_sr =? target_sr) then
    samples <- librosa_resample samples orig_sr target_sr ;;
    ret (samples, target_sr)
  else ret (samples, orig_sr).

(** [generate_waveform_gif(samples, sample_rate, output_path, duration)]:
    the frames handed to the GIF writer, one per call of [update] on
    [range(frames)].  The set-up runs in the order of the source: the time
    axis ([len(samples) / sample_rate]), [set_xlim(0, duration)],
    [set_ylim] on the scaled extremes, the frame size, and the [fps]
    argument [1 / frame_duration] of [anim.save]; each step may raise. *)
Definition generate_waveform_gif (samples : list float32) (sample_rate : Z)
  (duration : float64) : result (list frame_data) :=
  stop <- py_truediv_int (len samples) sample_rate ;;
  let time := np_linspace (of_Z64 0) stop (len samples) in
  _ <- validate_limit duration ;;
  limits <- ylim samples ;;
  _ <- validate_limit (fst limits) ;;
  _ <- validate_limit (snd limits) ;;
  spf <- samples_per_frame sample_rate duration ;;
  fps <- py_truediv_int_float 1 (frame_duration duration) ;;
  ret (map (update time samples spf) (range frames)).

(** [process_audio(file_path, target_sr)] *)
Definition process_audio (file_path : str) (target_sr : Z)
  : list event * result (list float32 * Z * AudioSegment) :=
  let (trace, loaded) := load_audio file_path in
  (trace,
   r <- loaded ;;
   let '(samples, sample_rate, original_audio) := r in
   r' <- resample_audio samples sample_rate target_sr ;;
   let '(samples, sample_rate) := r' in
   ret (samples, sample_rate, original_audio)).

End Pipeline.

(** ** Vocabulary of the statements *)

(** [x] is exactly [z * 2^k]. *)
Definition has_value (x : spec_float) (z k : Z) : bool :=
  match x with
  | S754_zero _ => z =? 0
  | S754_finite s m e =>
      if k <=? e then cond_Zopp s (Zpos m) * 2 ^ (e - k) =? z
      else cond_Zopp s (Zpos m) =? z * 2 ^ (k - e)
  | S754_infinity _ | S754_nan => false
  end.

(** [-1.0 <= x <= 1.0] *)
Definition in_unit_range (x : float32) : bool :=
  SFleb (of_Z32 (-1)) x && SFleb x (of_Z32 1).

(** A sample of a 16-bit segment. *)
Definition is_int16 (z : Z) : Prop := -32768 <= z < 32768.

(** The quotient [a / b] rounded up. *)
Definition ceil_div (a b : Z) : Z := (a + b - 1) / b.

(** [n_out] samples at rate [target_sr] last as long as [n_in] samples at
    rate [orig_sr], to within one output sample. *)
Definition within_rounding (n_out n_in orig_sr target_sr : Z) : Prop :=
  Z.abs (n_out * orig_sr - n_in * target_sr) < orig_sr.

(** [n_out] samples at rate [target_sr] last at least as long as [n_in]
    samples at rate [orig_sr], and at most one output sample longer: [n_out]
    lies between [n_in * target_sr / orig_sr] and that quotient plus one. *)
Definition within_one_sample (n_out n_in orig_sr target_sr : Z) : Prop :=
  n_in * target_sr <= n_out * orig_sr <= n_in * target_sr + orig_sr.

(** What librosa promises of [resample(samples, orig_sr, target_sr)] when
    it returns: a buffer of [n_samples] samples. *)
Definition resample_contract
  (librosa_resample : list float32 -> Z -> Z -> result (list float32))
  (samples : list float32) (orig_sr target_sr : Z) : Prop :=
  forall resampled, librosa_resample samples orig_sr target_sr = inr resampled ->
    librosa_n_samples (len samples) orig_sr target_sr = inr (len resampled).

(** A sample fits [width] bytes. *)
Definition fits_width (width z : Z) : Prop :=
  - 2 ^ (8 * width - 1) <= z < 2 ^ (8 * width - 1).

(** The samples of a segment fit its sample width. *)
Definition well_formed (a : AudioSegment) : Prop :=
  Forall (fits_width (sample_width a)) (get_array_of_samples a).

(** What pydub promises of [a.set_channels(1)] when it returns: a
    well-formed mono segment of the same frame rate and sample width. *)
Definition downmix_contract (set_channels : AudioSegment -> Z -> result AudioSegment)
  (a : AudioSegment) : Prop :=
  forall mixed, set_channels a 1 = inr mixed ->
    channels mixed = 1 /\ frame_rate mixed = frame_rate a
    /\ sample_width mixed = sample_width a /\ well_formed mixed.

(** The amplitude [x] is the sample [z] scaled by [1 / 2^15], within
    [-1, 1]. *)
Definition normalized (x : float32) (z : Z) : Prop :=
  has_value x z (-15) = true /\ in_unit_range x = true.

(** A valid binary32 amplitude within [-1, 1]: a sample of a normalised
    buffer. *)
Definition normalized_amplitude (x : float32) : bool :=
  valid_binary prec32 emax32 x && in_unit_range x.

(** The directory part of a path: empty, or ending in a separator. *)
Inductive dirname_of : str -> Prop :=
| dir_empty : dirname_of []
| dir_sep (d : str) : dirname_of (d ++ [PosixPath.sep]).

(** [check_range f lo n]: [f] holds on [lo, lo + 1, ..., lo + n - 1]. *)
Fixpoint check_range (f : Z -> bool) (lo : Z) (n : nat) : bool :=
  match n with
  | O => true
  | S n' => f lo && check_range f (lo + 1) n'
  end.

(** What [load_audio] makes of one 16-bit sample. *)
Definition normalized_ok (z : Z) : bool :=
  let x := div32 (of_Z32 z) (of_Z32 (2 ^ 15)) in
  has_value x z (-15) && in_unit_range x.

(** ** A concrete world: three files, a decoder, a down-mixer, a resampler *)

Module Demo.

Definition str_eqb (a b : str) : bool :=
  String.eqb (string_of_list_ascii a) (string_of_list_ascii b).

Definition stereo_clip : AudioSegment :=
  {| channels := 2; frame_rate := 44100; sample_width := 2;
     get_array_of_samples := [16384; -16384; 32767; 32767; -32768; -32768; 100; 301] |}.

Definition mono_clip : AudioSegment :=
  {| channels := 1; frame_rate := 8000; sample_width := 2;
     get_array_of_samples := [0; 12345; -32768; 32767] |}.

(** A 5.1 recording: six interleaved channels, one frame. *)
Definition surround_clip : AudioSegment :=
  {| channels := 6; frame_rate := 48000; sample_width := 2;
     get_array_of_samples := [1; 2; 3; 4; 5; 6] |}.

(** A mono recording with 32-bit samples. *)
Definition wide_clip : AudioSegment :=
  {| channels := 1; frame_rate := 48000; sample_width := 4;
     get_array_of_samples := [1073741824; -65536] |}.

Definition files : list (str * result AudioSegment) :=
  [ (of_string "sample_data/mmmm.mov", ret stereo_clip);
    (of_string "voice.wav", ret mono_clip);
    (of_string "surround.wav", ret surround_clip);
    (of_string "wide.wav", ret wide_clip);
    (of_string "broken.mov",
     raise (OtherException (of_string "CouldntDecodeError"))
       (of_string "Decoding failed. ffmpeg returned error code: 1")) ].

Definition path_exists (p : str) : bool :=
  existsb (fun f => str_eqb p (fst f)) files.

Definition from_file (p : str) : result AudioSegment :=
  match find (fun f => str_eqb p (fst f)) files with
  | Some f => snd f
  | None => raise FileNotFoundError p
  end.

Fixpoint mix_pairs (l : list Z) : list Z :=
  match l with
  | a :: b :: rest => (a + b) / 2 :: mix_pairs rest
  | _ => []
  end.

(** Stereo to mono by averaging; anything else is returned as it is. *)
Definition set_channels (a : AudioSegment) (n : Z) : result AudioSegment :=
  if (n =? 1) && (channels a =? 2) then
    ret {| channels := 1; frame_rate := frame_rate a; sample_width := sample_width a;
           get_array_of_samples := mix_pairs (get_array_of_samples a) |}
  else ret a.

(** Nearest-neighbour resampling to [ceil (n * target / orig)] samples. *)
Definition resample (samples : list float32) (orig_sr target_sr : Z)
  : result (list float32) :=
  let n := Z.to_nat (ceil_div (len samples * target_sr) orig_sr) in
  ret (map (fun i => nth (Z.to_nat (i * orig_sr / target_sr)) samples (S754_zero false))
         (range n)).

(** Nearest-neighbour resampling to as many samples as librosa returns. *)
Definition resample_n_samples (samples : list float32) (orig_sr target_sr : Z)
  : result (list float32) :=
  n <- librosa_n_samples (len samples) orig_sr target_sr ;;
  if n <? 0 then raise ValueError (of_string "negative dimensions are not allowed")
  else ret (map (fun i => nth (Z.to_nat (i * orig_sr / target_sr)) samples (S754_zero false))
              (range (Z.to_nat n))).

(** An evenly spaced axis of [num] points from [start] in steps of
    [(stop - start) / (num - 1)]. *)
Definition linspace (start stop : float64) (num : Z) : list float64 :=
  let step := div64 (SFsub prec64 emax64 stop start) (of_Z64 (num - 1)) in
  map (fun i => SFadd prec64 emax64 start (mul64 (of_Z64 i) step)) (range (Z.to_nat num)).

Definition load_audio := load_audio path_exists from_file set_channels.

Definition resample_audio := resample_audio resample.

Definition generate_waveform_gif := generate_waveform_gif linspace.

(** Half a second of a ramp at 20 Hz: ten samples. *)
Definition short_buffer : list float32 :=
  map (fun z => div32 (of_Z32 z) (of_Z32 (2 ^ 15)))
    [0; 4096; 8192; 12288; 16384; 12288; 8192; 4096; 0; -4096].

(** [n] samples of silence. *)
Definition silence (n : nat) : list float32 := repeat (S754_zero false) n.

End Demo.

(** ** [save_audio], [display_audio] and [main] with their effects *)

(** [str(n)] for an int [n]. *)
Definition py_str_int (n : Z) : str :=
  of_string (NilEmpty.string_of_int (Z.to_int n)).

(** What a run of [main] does to the outside world: the calls of
    [load_audio], [audio_segment.export], [anim.save], [print] and
    [ipd.display]. *)
Inductive action :=
| Outside (e : event)
| Export (segment : raw_segment) (output_path : str) (format : str)
| AnimSave (rendered : list frame_data) (output_path : str)
| Print (line : str)
| Display (samples : list float32) (sample_rate : Z).

(** An effectful computation: the actions performed, in order, and the
    outcome.  Nothing runs after an exception. *)
Module IO.

Definition io (A : Type) : Type := (list action * result A)%type.

Definition ret {A} (a : A) : io A := ([], Py.ret a).

Definition lift {A} (r : result A) : io A := ([], r).

(** One call to the outside: it is performed, then it returns or raises. *)
Definition call {A} (a : action) (r : result A) : io A := ([a], r).

Definition bind {A B} (m : io A) (k : A -> io B) : io B :=
  match snd m with
  | inl e => (fst m, inl e)
  | inr a => (fst m ++ fst (k a), snd (k a))
  end.

End IO.

Notation "x <-- m ;; k" := (IO.bind m (fun x => k))
  (at level 61, m at next level, right associativity).

(** What [load_audio] and [save_audio] make of one 16-bit sample, one after
    the other. *)
Definition roundtrip_ok (z : Z) : bool :=
  Np.astype_int16 (mul32 (div32 (of_Z32 z) (of_Z32 (2 ^ 15))) (of_Z32 (2 ^ 15))) =? z.

Section Orchestrator.

Variable path_exists : str -> bool.

Variable from_file : str -> result AudioSegment.

Variable set_channels : AudioSegment -> Z -> result AudioSegment.

Variable librosa_resample : list float32 -> Z -> Z -> result (list float32).

Variable np_linspace : float64 -> float64 -> Z -> list float64.

(** [audio_segment.export(output_path, format=...)] *)
Variable export : raw_segment -> str -> str -> result unit.

(** [anim.save(output_path, writer='imageio', fps=...)] on the frames of
    the animation. *)
Variable anim_save : list frame_data -> str -> result unit.

(** [ipd.display(ipd.Audio(samples, rate=sample_rate))] *)
Variable ipd_display : list float32 -> Z -> result unit.

(** The format specification [:.2f] on a float. *)
Variable format_2f : float64 -> str.

(** [save_audio(samples, sample_rate, output_path, original_audio)]: the
    arguments of [export] are evaluated before the call, the last of them
    [original_audio.format]. *)
Definition save_audio (samples : list float32) (sample_rate : Z) (output_path : str)
  (original_audio : AudioSegment) : IO.io unit :=
  let audio_segment := save_audio_segment samples sample_rate in
  format <-- IO.lift (audio_format original_audio) ;;
  IO.call (Export audio_segment output_path format)
    (export audio_segment output_path format).

(** [generate_waveform_gif] with its last step, the writing of the GIF. *)
Definition write_waveform_gif (samples : list float32) (sample_rate : Z)
  (output_path : str) (duration : float64) : IO.io unit :=
  rendered <-- IO.lift (generate_waveform_gif np_linspace samples sample_rate duration) ;;
  IO.call (AnimSave rendered output_path) (anim_save rendered output_path).

(** [display_audio(samples, sample_rate)] *)
Definition display_audio (samples : list float32) (sample_rate : Z) : IO.io unit :=
  IO.call (Display samples sample_rate) (ipd_display samples sample_rate).

(** The hard-coded input of [main]. *)
Definition main_file_path : str := of_string "sample_data/mmmm.mov".

(** The default [target_sr=22050] of [process_audio]. *)
Definition default_target_sr : Z := 22050.

(** The [try] block of [main]. *)
Definition main_body : IO.io unit :=
  let file_path := main_file_path in
  processed <--
    (let (trace, r) :=
       process_audio path_exists from_file set_channels librosa_resample
         file_path default_target_sr in
     (map Outside trace, r)) ;;
  let '(samples, sample_rate, original_audio) := processed in
  let (audio_output_path, gif_output_path) := get_output_filenames file_path in
  _ <-- save_audio samples sample_rate audio_output_path original_audio ;;
  _ <-- write_waveform_gif samples sample_rate gif_output_path default_duration ;;
  seconds <-- IO.lift (py_truediv_int (len samples) sample_rate) ;;
  _ <-- IO.call
          (Print (of_string "Audio loaded successfully, sample rate: "
                  ++ py_str_int sample_rate ++ of_string ", duration: "
                  ++ format_2f seconds ++ of_string " seconds"))
          (Py.ret tt) ;;
  _ <-- IO.call (Print (of_string "Processed audio saved to: " ++ audio_output_path))
          (Py.ret tt) ;;
  _ <-- IO.call (Print (of_string "Waveform GIF saved to: " ++ gif_output_path))
          (Py.ret tt) ;;
  display_audio samples sample_rate.

(** [main()]: the [try] block, and on any exception one line of report. *)
Definition main : list action :=
  match snd main_body with
  | inl e => fst main_body ++ [Print (of_string "Error processing audio: " ++ exn_msg e)]
  | inr _ => fst main_body
  end.

End Orchestrator.

(** [time = np.linspace(0, len(samples) / sample_rate, len(samples))] for a
    non-zero rate. *)
Definition time_axis (np_linspace : float64 -> float64 -> Z -> list float64)
  (samples : list float32) (sample_rate : Z) : list float64 :=
  np_linspace (of_Z64 0) (div64 (of_Z64 (len samples)) (of_Z64 sample_rate)) (len samples).

(** A run of [main] in the concrete world: every write succeeds. *)
Module DemoRun.

Definition export (segment : raw_segment) (output_path : str) (format : str)
  : result unit := Py.ret tt.

Definition anim_save (rendered : list frame_data) (output_path : str) : result unit :=
  Py.ret tt.

Definition ipd_display (samples : list float32) (sample_rate : Z) : result unit :=
  Py.ret tt.

(** A stand-in for the formatting of seconds: the whole seconds only. *)
Definition format_2f (x : float64) : str :=
  match trunc x with
  | Some z => py_str_int z ++ of_string ".00"
  | None => of_string "nan"
  end.

(** A world without the input file of [main]. *)
Definition no_file (p : str) : bool := false.

Definition main (path_exists : str -> bool) (from_file : str -> result AudioSegment)
  : list action :=
  main path_exists from_file Demo.set_channels Demo.resample Demo.linspace
    export anim_save ipd_display format_2f.

End DemoRun.

(** Well-formedness of a concrete segment, sample by sample. *)
Ltac each_fits_width :=
  unfold well_formed, fits_width;
  repeat (constructor; [split; [apply Z.leb_le | apply Z.ltb_lt]; vm_compute; reflexivity|]);
  constructor.

(** * Properties *)

(** ** Slices *)

Section Slices.

Context {A : Type}.

Implicit Types l a b : list A.

Lemma len_app a b : len (a ++ b) = len a + len b.
Proof. unfold len. rewrite length_app. lia. Qed.

Lemma len_nonneg l : 0 <= len l.
Proof. unfold len. lia. Qed.

Lemma len_cons (x : A) l : len (x :: l) = len l + 1.
Proof. unfold len. simpl List.length. lia. Qed.

Lemma adjust_index_nonneg n i : 0 <= i -> adjust_index n i = Z.min i n.
Proof.
  intros Hi. unfold adjust_index.
  destruct (Z.ltb_spec i 0); [lia | reflexivity].
Qed.

Lemma adjust_index_range n i : 0 <= n -> 0 <= adjust_index n i <= n.
Proof.
  intros Hn. unfold adjust_index.
  destruct (Z.ltb_spec i 0); lia.
Qed.

Lemma firstn_len_app a b : firstn (Z.to_nat (len a)) (a ++ b) = a.
Proof.
  unfold len. rewrite Nat2Z.id, firstn_app, Nat.sub_diag, firstn_all.
  simpl. apply app_nil_r.
Qed.

Lemma skipn_len_app a b : skipn (Z.to_nat (len a)) (a ++ b) = b.
Proof.
  unfold len. rewrite Nat2Z.id, skipn_app, Nat.sub_diag, skipn_all.
  reflexivity.
Qed.

(** [(a ++ b ++ c)[len a : len a + len b] = b] *)
Lemma slice_middle a b c : slice (a ++ b ++ c) (len a) (len a + len b) = b.
Proof.
  unfold slice.
  pose proof (len_nonneg a). pose proof (len_nonneg b). pose proof (len_nonneg c).
  rewrite !adjust_index_nonneg by lia.
  rewrite !len_app.
  replace (Z.min (len a) (len a + (len b + len c))) with (len a) by lia.
  replace (Z.min (len a + len b) (len a + (len b + len c)) - len a) with (len b) by lia.
  rewrite skipn_len_app. apply firstn_len_app.
Qed.

Lemma slice_from_app a b : slice_from (a ++ b) (len a) = b.
Proof.
  unfold slice_from. rewrite len_app.
  rewrite <- (app_nil_r b) at 1. rewrite slice_middle. reflexivity.
Qed.

Lemma slice_to_app a b : slice_to (a ++ b) (len a) = a.
Proof.
  unfold slice_to.
  change (slice (a ++ b) 0 (len a)) with (slice ([] ++ a ++ b) (len (@nil A)) (len (@nil A) + len a)).
  apply slice_middle.
Qed.

Lemma slice_from_0 l : slice_from l 0 = l.
Proof. exact (slice_from_app [] l). Qed.

Lemma slice_to_0 l : slice_to l 0 = [].
Proof. exact (slice_to_app [] l). Qed.

(** A slice is a segment of the list: nothing is read outside of it. *)
Lemma slice_segment l i j :
  exists before after, l = before ++ slice l i j ++ after
    /\ len before = adjust_index (len l) i.
Proof.
  unfold slice.
  pose proof (adjust_index_range (len l) i (len_nonneg l)) as Hi.
  set (lo := adjust_index (len l) i) in *.
  set (k := Z.to_nat (adjust_index (len l) j - lo)).
  exists (firstn (Z.to_nat lo) l), (skipn k (skipn (Z.to_nat lo) l)).
  split.
  - rewrite firstn_skipn. symmetry. apply firstn_skipn.
  - unfold len in *. rewrite length_firstn. lia.
Qed.

Lemma slice_length l i j : len (slice l i j) <= Z.max 0 (adjust_index (len l) j - adjust_index (len l) i).
Proof.
  unfold slice, len at 1. rewrite length_firstn. lia.
Qed.

(** Past the end of the list a slice is empty. *)
Lemma slice_past_end l i j : len l <= i -> slice l i j = [].
Proof.
  intros Hi. unfold slice.
  pose proof (len_nonneg l).
  rewrite (adjust_index_nonneg (len l) i) by lia.
  replace (Z.min i (len l)) with (len l) by lia.
  unfold len at 3. rewrite Nat2Z.id, skipn_all. apply firstn_nil.
Qed.

End Slices.

(** ** [str.rfind] *)

Lemma eqb_sym_false (a c : ascii) : a <> c -> Ascii.eqb a c = false.
Proof. intros H. apply Ascii.eqb_neq. exact H. Qed.

Lemma rfind_from_app c s1 s2 i last :
  rfind_from c (s1 ++ s2) i last = rfind_from c s2 (i + len s1) (rfind_from c s1 i last).
Proof.
  revert i last. induction s1 as [|a s1 IH]; intros i last; simpl.
  - f_equal. unfold len. simpl. lia.
  - rewrite IH. f_equal. rewrite len_cons. lia.
Qed.

Lemma rfind_from_absent c s i last : ~ In c s -> rfind_from c s i last = last.
Proof.
  revert i last. induction s as [|a s IH]; intros i last Hc; simpl.
  - reflexivity.
  - rewrite IH by (intros H; apply Hc; right; exact H).
    rewrite eqb_sym_false; [reflexivity|].
    intros ->. apply Hc. left. reflexivity.
Qed.

Lemma rfind_from_last c s1 s2 i last :
  ~ In c s2 -> rfind_from c (s1 ++ c :: s2) i last = i + len s1.
Proof.
  intros Hc. rewrite rfind_from_app. simpl.
  rewrite Ascii.eqb_refl. apply rfind_from_absent. exact Hc.
Qed.

(** A string either lacks [c] or splits at the last occurrence of [c]. *)
Lemma split_at_last (c : ascii) (s : str) :
  ~ In c s \/ exists s1 s2, s = s1 ++ c :: s2 /\ ~ In c s2.
Proof.
  induction s as [|a s IH].
  - left. intros [].
  - destruct IH as [Hno | (s1 & s2 & -> & Hno)].
    + destruct (Ascii.eqb_spec a c) as [-> | Hne].
      * right. exists [], s. split; [reflexivity | exact Hno].
      * left. intros [H | H]; [exact (Hne H) | exact (Hno H)].
    + right. exists (a :: s1), s2. split; [reflexivity | exact Hno].
Qed.

Lemma rfind_absent s c : ~ In c s -> rfind s c = -1.
Proof. apply rfind_from_absent. Qed.

Lemma rfind_last s1 s2 c : ~ In c s2 -> rfind (s1 ++ c :: s2) c = len s1.
Proof. intros H. unfold rfind. rewrite rfind_from_last by exact H. lia. Qed.

Lemma rfind_range s c : -1 <= rfind s c < len s.
Proof.
  pose proof (len_nonneg s).
  destruct (split_at_last c s) as [Hno | (s1 & s2 & -> & Hno)].
  - rewrite rfind_absent by exact Hno. lia.
  - rewrite rfind_last by exact Hno. rewrite len_app, len_cons.
    pose proof (len_nonneg s1). pose proof (len_nonneg s2). lia.
Qed.

(** ** [os.path.basename] and [os.path.splitext] *)

Module PosixPathFacts.

Import PosixPath.

Lemma rfind_sep_dir d b :
  dirname_of d -> ~ In sep b -> rfind (d ++ b) sep = len d - 1.
Proof.
  intros [|d'] Hb.
  - simpl. rewrite rfind_absent by exact Hb. reflexivity.
  - rewrite <- app_assoc. simpl. rewrite rfind_last by exact Hb.
    rewrite len_app. unfold len at 3. simpl. lia.
Qed.

Lemma basename_dir d b : dirname_of d -> ~ In sep b -> basename (d ++ b) = b.
Proof.
  intros Hd Hb. unfold basename. rewrite rfind_sep_dir by assumption.
  replace (len d - 1 + 1) with (len d) by lia. apply slice_from_app.
Qed.

Lemma path_split (p : str) :
  exists d b, p = d ++ b /\ dirname_of d /\ ~ In sep b.
Proof.
  destruct (split_at_last sep p) as [Hno | (s1 & s2 & -> & Hno)].
  - exists [], p. repeat split; [constructor | exact Hno].
  - exists (s1 ++ [sep]), s2. rewrite <- app_assoc. repeat split; [constructor | exact Hno].
Qed.

Lemma basename_no_sep p : ~ In sep (basename p).
Proof.
  destruct (path_split p) as (d & b & -> & Hd & Hb).
  rewrite basename_dir; assumption.
Qed.

Lemma basename_idem p : basename (basename p) = basename p.
Proof.
  apply (basename_dir [] (basename p)); [constructor | apply basename_no_sep].
Qed.

(** [splitext] on a path whose last component has no dot. *)
Lemma splitext_no_dot d b :
  dirname_of d -> ~ In sep b -> ~ In extsep b -> splitext (d ++ b) = (d ++ b, []).
Proof.
  intros Hd Hb Hdot. unfold splitext.
  rewrite rfind_sep_dir by assumption.
  unfold rfind at 1. rewrite rfind_from_app, (rfind_from_absent _ b) by exact Hdot.
  fold (rfind d extsep). pose proof (rfind_range d extsep).
  destruct (Z.gtb_spec (rfind d extsep) (len d - 1)); [lia|].
  simpl. rewrite slice_to_0. reflexivity.
Qed.

(** [splitext] on a path whose last component is [b1 ++ "." ++ b2], with
    no further dot in [b2]. *)
Lemma splitext_dot d b1 b2 :
  dirname_of d -> ~ In sep (b1 ++ extsep :: b2) -> ~ In extsep b2 ->
  splitext (d ++ b1 ++ extsep :: b2)
  = if has_non_dot b1 then (d ++ b1, extsep :: b2) else (d ++ b1 ++ extsep :: b2, []).
Proof.
  intros Hd Hb Hdot. unfold splitext.
  rewrite rfind_sep_dir by assumption.
  rewrite (app_assoc d b1), rfind_last by exact Hdot.
  rewrite len_app. pose proof (len_nonneg b1).
  destruct (Z.gtb_spec (len d + len b1) (len d - 1)); [|lia].
  replace (len d - 1 + 1) with (len d) by lia.
  rewrite <- (app_assoc d b1), slice_middle. simpl.
  destruct (has_non_dot b1).
  - rewrite (app_assoc d b1), <- len_app, slice_to_app, slice_from_app. reflexivity.
  - rewrite slice_to_0. reflexivity.
Qed.

(** The extension of a path is the extension of its last component. *)
Lemma splitext_ext_basename p : snd (splitext p) = snd (splitext (basename p)).
Proof.
  destruct (path_split p) as (d & b & -> & Hd & Hb).
  rewrite basename_dir by assumption.
  destruct (split_at_last extsep b) as [Hno | (b1 & b2 & -> & Hno)].
  - rewrite splitext_no_dot by assumption.
    pose proof (splitext_no_dot [] b dir_empty Hb Hno) as E. simpl in E.
    rewrite E. reflexivity.
  - rewrite splitext_dot by assumption.
    pose proof (splitext_dot [] b1 b2 dir_empty Hb Hno) as E. simpl in E.
    rewrite E. destruct (has_non_dot b1); reflexivity.
Qed.

(** Root and extension concatenate to the path. *)
Lemma splitext_app p : fst (splitext p) ++ snd (splitext p) = p.
Proof.
  destruct (path_split p) as (d & b & -> & Hd & Hb).
  destruct (split_at_last extsep b) as [Hno | (b1 & b2 & -> & Hno)].
  - rewrite splitext_no_dot by assumption. apply app_nil_r.
  - rewrite splitext_dot by assumption.
    destruct (has_non_dot b1); simpl; [rewrite <- app_assoc; reflexivity | apply app_nil_r].
Qed.

End PosixPathFacts.

(** ** [get_output_filenames] *)

Import PosixPath PosixPathFacts.

(** C6: for every input path, with [stem] and [ext] the root and the
    extension of the input's last component (they concatenate to it),
    [get_output_filenames] returns the audio path
    ["sample_data/v2_" ++ stem ++ ext] and the GIF path
    ["sample_data/v2_" ++ stem ++ ".gif"]; for ["sample_data/mmmm.mov"]
    these are ["sample_data/v2_mmmm.mov"] and ["sample_data/v2_mmmm.gif"]. *)
Theorem get_output_filenames_spec (input_path : str) :
  let name := basename input_path in
  let stem := fst (splitext name) in
  let ext := snd (splitext name) in
  stem ++ ext = name
  /\ get_output_filenames input_path
     = (of_string "sample_data/v2_" ++ stem ++ ext,
        of_string "sample_data/v2_" ++ stem ++ of_string ".gif")
  /\ get_output_filenames (of_string "sample_data/mmmm.mov")
     = (of_string "sample_data/v2_mmmm.mov", of_string "sample_data/v2_mmmm.gif").
Proof.
  intros name stem ext. split; [apply splitext_app|]. split; [|reflexivity].
  unfold get_output_filenames. rewrite splitext_ext_basename. reflexivity.
Qed.

(** C10: the directory of the input is discarded.  For every directory
    [dir] and file name [file] (without separator), the outputs for
    [dir/file] are those for [file] alone: both lie under the literal
    ["sample_data/"], the audio output being ["sample_data/v2_" ++ file]
    and the GIF output ["sample_data/v2_" ++ stem ++ ".gif"] for the root
    [stem] of [file]. *)
Theorem get_output_filenames_drops_directory (dir file : str) :
  ~ In sep file ->
  get_output_filenames (dir ++ sep :: file) = get_output_filenames file
  /\ get_output_filenames (dir ++ sep :: file)
     = (of_string "sample_data/" ++ of_string "v2_" ++ file,
        of_string "sample_data/" ++ of_string "v2_" ++ fst (splitext file) ++ of_string ".gif").
Proof.
  intros Hfile.
  assert (Hbase : basename (dir ++ sep :: file) = file).
  { change (dir ++ sep :: file) with (dir ++ [sep] ++ file).
    rewrite app_assoc. apply basename_dir; [constructor | exact Hfile]. }
  assert (Hself : basename file = file).
  { apply (basename_dir [] file); [constructor | exact Hfile]. }
  assert (Hout : forall p, basename p = file ->
            get_output_filenames p
            = (of_string "sample_data/" ++ of_string "v2_" ++ file,
               of_string "sample_data/" ++ of_string "v2_" ++ fst (splitext file)
                 ++ of_string ".gif")).
  { intros p Hp. unfold get_output_filenames.
    rewrite splitext_ext_basename, Hp.
    pose proof (splitext_app file) as Happ.
    change (of_string "sample_data/v2_") with (of_string "sample_data/" ++ of_string "v2_").
    rewrite <- !app_assoc. rewrite Happ. reflexivity. }
  rewrite (Hout _ Hbase), (Hout _ Hself). split; reflexivity.
Qed.

Lemma get_output_filenames_drops_directory_witness :
  ~ In sep (of_string "take1.wav")
  /\ get_output_filenames (of_string "recordings/2024/take1.wav")
     = (of_string "sample_data/v2_take1.wav", of_string "sample_data/v2_take1.gif").
Proof.
  assert (H : ~ In sep (of_string "take1.wav")).
  { simpl. intros H. repeat (destruct H as [H | H]; [discriminate H|]). exact H. }
  split; [exact H|].
  exact (proj2 (get_output_filenames_drops_directory (of_string "recordings/2024") (of_string "take1.wav") H)).
Defined.

(** ** [load_audio] *)

Section LoadAudio.

Variable path_exists : str -> bool.

Variable from_file : str -> result AudioSegment.

Variable set_channels : AudioSegment -> Z -> result AudioSegment.

(** C1: on a path that does not exist, [load_audio] raises
    [FileNotFoundError] having only asked whether the path exists: the
    decoder is never called, and the error is not the decode error. *)
Theorem load_audio_missing_file (file_path : str) :
  path_exists file_path = false ->
  load_audio path_exists from_file set_channels file_path
  = ([OsPathExists file_path],
     raise FileNotFoundError (of_string "Audio file not found: " ++ file_path))
  /\ (forall p, ~ In (AudioSegmentFromFile p) (fst (load_audio path_exists from_file set_channels file_path)))
  /\ (forall e, snd (load_audio path_exists from_file set_channels file_path) = inl e -> exn_cls e <> ValueError).
Proof.
  intros Hmissing.
  assert (E : load_audio path_exists from_file set_channels file_path
              = ([OsPathExists file_path],
                 raise FileNotFoundError (of_string "Audio file not found: " ++ file_path))).
  { unfold load_audio. rewrite Hmissing. reflexivity. }
  rewrite E. split; [reflexivity|]. split.
  - intros p [H | []]. discriminate H.
  - intros e H. simpl in H. injection H as <-. simpl. discriminate.
Qed.

(** C7: on an existing path whose decoding raises an exception [e],
    [load_audio] raises [ValueError] with the message
    ["Failed to load audio file: " ++ str(e)]. *)
Theorem load_audio_decode_error (file_path : str) (e : exn) :
  path_exists file_path = true ->
  from_file file_path = inl e ->
  load_audio path_exists from_file set_channels file_path
  = ([OsPathExists file_path; AudioSegmentFromFile file_path],
     raise ValueError (of_string "Failed to load audio file: " ++ exn_msg e)).
Proof.
  intros Hexists Hdecode.
  unfold load_audio, decode. rewrite Hexists, Hdecode. reflexivity.
Qed.

End LoadAudio.

Lemma load_audio_missing_file_witness :
  Demo.path_exists (of_string "nowhere.mov") = false
  /\ Demo.load_audio (of_string "nowhere.mov")
     = ([OsPathExists (of_string "nowhere.mov")],
        raise FileNotFoundError (of_string "Audio file not found: nowhere.mov")).
Proof.
  split; [reflexivity|].
  exact (proj1 (load_audio_missing_file Demo.path_exists Demo.from_file Demo.set_channels
                  (of_string "nowhere.mov") eq_refl)).
Defined.

Lemma load_audio_decode_error_witness :
  Demo.path_exists (of_string "broken.mov") = true
  /\ Demo.load_audio (of_string "broken.mov")
     = ([OsPathExists (of_string "broken.mov"); AudioSegmentFromFile (of_string "broken.mov")],
        raise ValueError
          (of_string "Failed to load audio file: Decoding failed. ffmpeg returned error code: 1")).
Proof.
  split; [reflexivity|].
  exact (load_audio_decode_error Demo.path_exists Demo.from_file Demo.set_channels
           (of_string "broken.mov") _ eq_refl eq_refl).
Defined.

(** ** Normalisation of 16-bit samples *)

Lemma check_range_sound (f : Z -> bool) (n : nat) :
  forall lo, check_range f lo n = true ->
  forall z, lo <= z < lo + Z.of_nat n -> f z = true.
Proof.
  induction n as [|n IH]; intros lo Hcheck z Hz.
  - lia.
  - simpl in Hcheck. apply andb_prop in Hcheck as [Hlo Hrest].
    destruct (Z.eq_dec z lo) as [-> | Hne]; [exact Hlo|].
    apply (IH (lo + 1) Hrest). lia.
Qed.

Lemma normalized_ok_all : check_range normalized_ok (-32768) (Z.to_nat 65536) = true.
Proof. vm_compute. reflexivity. Qed.

(** Dividing a 16-bit sample by [2^15] in binary32 is exact and lands in
    [-1, 1]. *)
Lemma normalize_int16 (z : Z) :
  is_int16 z -> normalized (div32 (of_Z32 z) (of_Z32 (2 ^ 15))) z.
Proof.
  intros Hz.
  assert (H : normalized_ok z = true).
  { apply (check_range_sound _ _ _ normalized_ok_all). unfold is_int16 in Hz. lia. }
  unfold normalized_ok in H. apply andb_prop in H. exact H.
Qed.

Lemma normalize_forall2 (l : list Z) :
  Forall is_int16 l -> Forall2 normalized (normalize l) l.
Proof.
  induction 1 as [|z l Hz _ IH]; simpl; constructor.
  - apply normalize_int16. exact Hz.
  - exact IH.
Qed.

Lemma well_formed_int16 (a : AudioSegment) :
  sample_width a = 2 -> well_formed a -> Forall is_int16 (get_array_of_samples a).
Proof.
  unfold well_formed. intros ->. apply Forall_impl.
  intros z Hz. exact Hz.
Qed.

Section LoadAudioSuccess.

Variable path_exists : str -> bool.

Variable from_file : str -> result AudioSegment.

Variable set_channels : AudioSegment -> Z -> result AudioSegment.

(** C5, amended: for every mono or stereo input with 16-bit samples that
    [load_audio] loads successfully, the returned handle is mono, the
    returned buffer holds each of its samples scaled by [1 / 2^15],
    within [-1, 1], and the returned rate is the frame rate of the
    decoded source. *)
Theorem load_audio_mono_normalized (file_path : str) (decoded : AudioSegment)
  (samples : list float32) (rate : Z) (audio : AudioSegment) :
  from_file file_path = inr decoded ->
  channels decoded = 1 \/ channels decoded = 2 ->
  sample_width decoded = 2 ->
  well_formed decoded ->
  downmix_contract set_channels decoded ->
  snd (load_audio path_exists from_file set_channels file_path) = inr (samples, rate, audio) ->
  channels audio = 1
  /\ rate = frame_rate decoded
  /\ Forall2 normalized samples (get_array_of_samples audio).
Proof.
  intros Hdecode Hchannels Hwidth Hwf Hmix Hload.
  unfold load_audio in Hload.
  destruct (path_exists file_path); simpl in Hload; [|discriminate Hload].
  unfold decode in Hload. rewrite Hdecode in Hload. simpl in Hload.
  destruct Hchannels as [Hmono | Hstereo].
  - rewrite Hmono in Hload. simpl in Hload.
    injection Hload as <- <- <-.
    split; [exact Hmono|]. split; [reflexivity|].
    apply normalize_forall2, well_formed_int16; assumption.
  - rewrite Hstereo in Hload. simpl in Hload.
    destruct (set_channels decoded 1) as [e | mixed] eqn:Hset; simpl in Hload;
      [discriminate Hload|].
    injection Hload as <- <- <-.
    destruct (Hmix mixed Hset) as (Hc & Hr & Hw & Hwf').
    split; [exact Hc|]. split; [exact Hr|].
    apply normalize_forall2, well_formed_int16; [congruence | exact Hwf'].
Qed.

End LoadAudioSuccess.

Lemma demo_stereo_well_formed : well_formed Demo.stereo_clip.
Proof. each_fits_width. Qed.

Lemma demo_downmix_contract : downmix_contract Demo.set_channels Demo.stereo_clip.
Proof.
  intros mixed H. injection H as <-.
  split; [reflexivity|]. split; [reflexivity|]. split; [reflexivity|].
  each_fits_width.
Qed.

Lemma load_audio_mono_normalized_witness :
  exists samples audio,
    snd (Demo.load_audio (of_string "sample_data/mmmm.mov")) = inr (samples, 44100, audio)
    /\ channels audio = 1
    /\ Forall2 normalized samples (get_array_of_samples audio).
Proof.
  eexists. eexists. split; [reflexivity|].
  pose proof (load_audio_mono_normalized Demo.path_exists Demo.from_file Demo.set_channels
                (of_string "sample_data/mmmm.mov") Demo.stereo_clip _ _ _
                eq_refl (or_intror eq_refl) eq_refl
                demo_stereo_well_formed demo_downmix_contract eq_refl) as H.
  split; [exact (proj1 H) | exact (proj2 (proj2 H))].
Defined.

(** C5 as stated fails: a six-channel file loads successfully and is
    returned with its six channels interleaved, and a file with 32-bit
    samples loads successfully with amplitudes far outside [-1, 1]. *)
Lemma load_audio_not_always_mono_normalized :
  (exists samples rate audio,
      snd (Demo.load_audio (of_string "surround.wav")) = inr (samples, rate, audio)
      /\ channels audio = 6)
  /\ (exists samples rate audio,
         snd (Demo.load_audio (of_string "wide.wav")) = inr (samples, rate, audio)
         /\ nth 0 samples S754_nan = of_Z32 32768
         /\ forallb in_unit_range samples = false).
Proof.
  split; do 3 eexists; (split; [reflexivity|]); [reflexivity|].
  split; reflexivity.
Qed.

(** ** [resample_audio] *)

Section ResampleAudio.

Variable librosa_resample : list float32 -> Z -> Z -> result (list float32).

(** C2: when the target rate equals the source rate, [resample_audio]
    returns the very buffer it was given, with the rate unchanged. *)
Theorem resample_audio_same_rate (samples : list float32) (r : Z) :
  resample_audio librosa_resample samples r r = ret (samples, r).
Proof.
  unfold resample_audio. rewrite Z.eqb_refl. reflexivity.
Qed.

End ResampleAudio.

(** ** [save_audio] *)

(** C8: de-normalisation multiplies by [2^15] and truncates toward zero
    ([1.5] becomes [1], [-1.5] becomes [-1]); the sample [+1.0] becomes
    [32768.0], which truncates to [32768], outside the 16-bit range, and
    is stored as [-32768]: the bytes handed to the writer for full-scale
    positive are those of full-scale negative. *)
Theorem save_audio_full_scale_wraps (sample_rate : Z) :
  let one := of_Z32 1 in
  mul32 one (of_Z32 (2 ^ 15)) = of_Z32 32768
  /\ trunc (of_Z32 32768) = Some 32768
  /\ ~ is_int16 32768
  /\ samples_int16 [one] = [-32768]
  /\ samples_int16 [one] = samples_int16 [of_Z32 (-1)]
  /\ raw_data (save_audio_segment [one] sample_rate) = Np.tobytes [-32768]
  /\ samples_int16 [div32 (of_Z32 3) (of_Z32 65536); div32 (of_Z32 (-3)) (of_Z32 65536)]
     = [1; -1].
Proof.
  intros one. repeat split; try (vm_compute; reflexivity).
  unfold is_int16. lia.
Qed.

(** ** Rounding never overflows on small operands *)

Module RoundingFacts.

Section Rounding.

Variables prec emax : Z.

Lemma shr_1_bounds (r : shr_record) :
  0 <= shr_m r -> 0 <= shr_m (shr_1 r) <= shr_m r.
Proof.
  destruct r as [m b1 b2]. simpl.
  destruct m as [|p|p]; [simpl; lia | destruct p; simpl; lia | lia].
Qed.

Lemma iter_shr_1_bounds (p : positive) :
  forall r, 0 <= shr_m r -> 0 <= shr_m (iter_pos shr_1 p r) <= shr_m r.
Proof.
  induction p as [p IH | p IH |]; intros r Hr; simpl.
  - pose proof (shr_1_bounds r Hr) as H1.
    pose proof (IH _ (proj1 H1)) as H2.
    pose proof (IH _ (proj1 H2)) as H3. lia.
  - pose proof (IH _ Hr) as H2.
    pose proof (IH _ (proj1 H2)) as H3. lia.
  - apply shr_1_bounds. exact Hr.
Qed.

Lemma shr_bounds (r : shr_record) (e n : Z) :
  0 <= shr_m r ->
  0 <= shr_m (fst (shr r e n)) <= shr_m r /\ snd (shr r e n) = e + Z.max 0 n.
Proof.
  intros Hr. unfold shr. destruct n as [|p|p]; simpl.
  - split; lia.
  - split; [apply iter_shr_1_bounds; exact Hr | lia].
  - split; lia.
Qed.

Lemma shr_m_of_loc (m : Z) (l : location) : shr_m (shr_record_of_loc m l) = m.
Proof. destruct l as [|[]]; reflexivity. Qed.

Lemma digits2_pos_size (p : positive) : digits2_pos p = Pos.size p.
Proof. induction p as [p IH | p IH |]; simpl; congruence. Qed.

(** A number below [2^k] has at most [k] digits. *)
Lemma Zdigits2_bound (m k : Z) : 0 <= k -> 0 <= m < 2 ^ k -> 0 <= Zdigits2 m <= k.
Proof.
  intros Hk [Hm0 Hm]. destruct m as [|p|p]; simpl; [lia | | lia].
  rewrite digits2_pos_size. split; [lia|].
  pose proof (Pos.size_le p) as Hsize.
  apply Pos2Z.pos_le_pos in Hsize. rewrite Pos2Z.inj_pow in Hsize.
  apply Z.lt_succ_r. apply (Z.pow_lt_mono_r_iff 2); [lia | lia |].
  rewrite Z.pow_succ_r by lia. lia.
Qed.

Lemma fexp_mono (a b : Z) : a <= b -> fexp prec emax a <= fexp prec emax b.
Proof. unfold fexp. lia. Qed.

Lemma shr_fexp_bounds (m e : Z) (l : location) (k : Z) :
  0 <= k -> 0 <= m < 2 ^ k ->
  0 <= shr_m (fst (shr_fexp prec emax m e l)) <= m
  /\ snd (shr_fexp prec emax m e l) <= Z.max e (fexp prec emax (k + e)).
Proof.
  intros Hk Hm. unfold shr_fexp.
  pose proof (shr_bounds (shr_record_of_loc m l) e
                (fexp prec emax (Zdigits2 m + e) - e)) as H.
  rewrite shr_m_of_loc in H. destruct (H (proj1 Hm)) as [Hmant Hexp].
  split; [exact Hmant|]. rewrite Hexp.
  pose proof (Zdigits2_bound m k Hk Hm) as Hd.
  pose proof (fexp_mono (Zdigits2 m + e) (k + e) ltac:(lia)). lia.
Qed.

Lemma round_nearest_even_bounds (m : Z) (l : location) :
  m <= round_nearest_even m l <= m + 1.
Proof.
  unfold round_nearest_even. destruct l as [|[]]; try lia.
  destruct (Z.even m); lia.
Qed.

(** Rounding a mantissa below [2^k] at an exponent of at most [E]: unless
    the bound [B'] on the rounded exponent exceeds the largest exponent,
    the result is zero or finite. *)
Lemma binary_round_aux_bounds (s : bool) (m e : Z) (l : location) (k E : Z) :
  0 <= k -> 0 <= m < 2 ^ k -> e <= E ->
  let B := Z.max E (fexp prec emax (k + E)) in
  let B' := Z.max B (fexp prec emax (k + 1 + B)) in
  B' <= emax - prec ->
  match binary_round_aux prec emax s m e l with
  | S754_zero _ => True
  | S754_finite _ m' e' => Zpos m' < 2 ^ (k + 1) /\ e' <= B'
  | S754_infinity _ | S754_nan => False
  end.
Proof.
  intros Hk Hm He B B' HB. unfold binary_round_aux.
  pose proof (shr_fexp_bounds m e l k Hk Hm) as [Hm1 He1].
  destruct (shr_fexp prec emax m e l) as [r1 e1]. simpl in Hm1, He1.
  pose proof (round_nearest_even_bounds (shr_m r1) (loc_of_shr_record r1)) as Hround.
  set (m1 := round_nearest_even (shr_m r1) (loc_of_shr_record r1)) in *.
  assert (Hpow : 2 ^ (k + 1) = 2 * 2 ^ k).
  { rewrite Z.pow_add_r by lia. change (2 ^ 1) with 2. lia. }
  assert (Hm1' : 0 <= m1 < 2 ^ (k + 1)) by lia.
  pose proof (shr_fexp_bounds m1 e1 loc_Exact (k + 1) ltac:(lia) Hm1') as [Hm2 He2].
  destruct (shr_fexp prec emax m1 e1 loc_Exact) as [r2 e2]. simpl in Hm2, He2.
  assert (He1' : e1 <= B).
  { pose proof (fexp_mono (k + e) (k + E) ltac:(lia)). unfold B. lia. }
  assert (He2' : e2 <= B').
  { pose proof (fexp_mono (k + 1 + e1) (k + 1 + B) ltac:(lia)). unfold B'. lia. }
  destruct (shr_m r2) as [|m'|m'].
  - exact I.
  - destruct (Z.leb_spec e2 (emax - prec)); [split; lia | lia].
  - lia.
Qed.

Lemma pos_iter_xO (m d : positive) :
  Zpos (Pos.iter xO m d) = Zpos m * 2 ^ Zpos d.
Proof.
  induction d as [|d IH] using Pos.peano_ind.
  - simpl. lia.
  - rewrite Pos.iter_succ, Pos2Z.inj_xO, IH, Pos2Z.inj_succ, Z.pow_succ_r by lia. lia.
Qed.

Lemma shl_align_bounds (mx : positive) (ex ex' : Z) :
  snd (shl_align mx ex ex') = Z.min ex ex'
  /\ Zpos (fst (shl_align mx ex ex')) = Zpos mx * 2 ^ (ex - Z.min ex ex').
Proof.
  unfold shl_align. destruct (ex' - ex) as [|d|d] eqn:E; simpl.
  - replace (Z.min ex ex') with ex by lia. rewrite Z.sub_diag. simpl. lia.
  - replace (Z.min ex ex') with ex by lia. rewrite Z.sub_diag. simpl. lia.
  - replace (Z.min ex ex') with ex' by lia.
    replace (ex - ex') with (Zpos d) by lia. split; [reflexivity | apply pos_iter_xO].
Qed.

End Rounding.

(** [float(n)] for a positive [n] below [2^64]. *)
Lemma of_Z64_bounds (n : Z) :
  0 < n < 2 ^ 64 ->
  match of_Z64 n with
  | S754_zero _ => True
  | S754_finite _ m e => Zpos m < 2 ^ 117 /\ e <= 127
  | S754_infinity _ | S754_nan => False
  end.
Proof.
  intros Hn. destruct n as [|p|p]; try lia.
  unfold of_Z64, binary_normalize, binary_round.
  pose proof (shl_align_bounds p 0 (fexp prec64 emax64 (Zpos (digits2_pos p) + 0)))
    as [Hez Hmz].
  destruct (shl_align p 0 _) as [mz ez]. cbn [fst snd] in Hez, Hmz.
  rewrite <- Hez in Hmz.
  assert (Hfexp : -52 <= fexp prec64 emax64 (Zpos (digits2_pos p) + 0)).
  { unfold fexp, prec64. lia. }
  assert (Hmz' : 0 <= Zpos mz < 2 ^ 116).
  { split; [lia|]. rewrite Hmz.
    assert (2 ^ (0 - ez) <= 2 ^ 52) by (apply Z.pow_le_mono_r; lia).
    assert (0 < 2 ^ (0 - ez)) by (apply Z.pow_pos_nonneg; lia).
    change (2 ^ 116) with (2 ^ 64 * 2 ^ 52). nia. }
  apply (binary_round_aux_bounds prec64 emax64 false (Zpos mz) ez loc_Exact 116 0);
    [lia | exact Hmz' | lia |].
  vm_compute. discriminate.
Qed.

Lemma py_float_of_int_bounds (n : Z) :
  0 < n < 2 ^ 64 ->
  py_float_of_int n = inr (of_Z64 n).
Proof.
  intros Hn. unfold py_float_of_int. pose proof (of_Z64_bounds n Hn) as H.
  destruct (of_Z64 n); simpl; (reflexivity || contradiction).
Qed.

(** The frame size exists for every positive sample rate below [2^64]. *)
Lemma samples_per_frame_total (sample_rate : Z) :
  0 < sample_rate < 2 ^ 64 ->
  exists spf, samples_per_frame sample_rate default_duration = inr spf.
Proof.
  intros Hsr. unfold samples_per_frame.
  change (frame_duration default_duration)
    with (S754_finite false 7205759403792794 (-57)).
  rewrite (py_float_of_int_bounds _ Hsr). cbv beta iota delta [Py.bind].
  pose proof (of_Z64_bounds _ Hsr) as Hr.
  destruct (of_Z64 sample_rate) as [s | s | | s m e]; try contradiction.
  - eexists. reflexivity.
  - destruct Hr as [Hm He].
    unfold mul64, SFmul.
    pose proof (binary_round_aux_bounds prec64 emax64 (xorb s false)
                  (Zpos (m * 7205759403792794)) (e + -57) loc_Exact 170 70
                  ltac:(lia)) as H.
    assert (Hprod : 0 <= Zpos (m * 7205759403792794) < 2 ^ 170).
    { split; [lia|]. rewrite Pos2Z.inj_mul.
      change (2 ^ 170) with (2 ^ 117 * 2 ^ 53).
      assert (7205759403792794 < 2 ^ 53) by (vm_compute; reflexivity). nia. }
    specialize (H Hprod ltac:(lia) ltac:(vm_compute; discriminate)).
    unfold py_int_of_float.
    destruct (binary_round_aux prec64 emax64 (xorb s false)
                (Zpos (m * 7205759403792794)) (e + -57) loc_Exact);
      try contradiction; eexists; reflexivity.
Qed.

(** A valid binary32 amplitude within [-1, 1] is zero or has a mantissa
    below [2^24] and an exponent of at most [-23]. *)
Lemma normalized_amplitude_shape (x : float32) :
  normalized_amplitude x = true ->
  match x with
  | S754_zero _ => True
  | S754_finite _ m e => Zpos m < 2 ^ 24 /\ e <= -23
  | S754_infinity _ | S754_nan => False
  end.
Proof.
  unfold normalized_amplitude, in_unit_range.
  change (of_Z32 (-1)) with (S754_finite true 8388608 (-23)).
  change (of_Z32 1) with (S754_finite false 8388608 (-23)).
  intros H. apply andb_prop in H as [Hvalid H]. apply andb_prop in H as [Hlo Hhi].
  destruct x as [s | s | | s m e]; try exact I.
  - destruct s; discriminate.
  - discriminate.
  - split.
    + simpl in Hvalid. unfold bounded, canonical_mantissa in Hvalid.
      apply andb_prop in Hvalid as [Hcanon _]. apply Z.eqb_eq in Hcanon.
      unfold fexp, prec32 in Hcanon.
      assert (Hd : Zpos (digits2_pos m) <= 24) by lia.
      rewrite digits2_pos_size in Hd.
      pose proof (Pos.size_gt m) as Hgt. apply Pos2Z.pos_lt_pos in Hgt.
      rewrite Pos2Z.inj_pow in Hgt.
      assert (2 ^ Zpos (Pos.size m) <= 2 ^ 24) by (apply Z.pow_le_mono_r; lia).
      lia.
    + unfold SFleb, SFcompare in Hlo, Hhi. destruct s.
      * destruct (Z.compare_spec (-23) e); lia || discriminate Hlo.
      * destruct (Z.compare_spec e (-23)); lia || discriminate Hhi.
Qed.

(** The scaled axis limit of such an amplitude is finite. *)
Lemma scaled_limit_finite (x : float32) :
  normalized_amplitude x = true -> is_finite (mul32 x lit32_1_1) = true.
Proof.
  intros Hx. pose proof (normalized_amplitude_shape x Hx) as H.
  destruct x as [s | s | | s m e]; try contradiction; [reflexivity|].
  destruct H as [Hm He]. unfold mul32, lit32_1_1, SFmul.
  pose proof (binary_round_aux_bounds prec32 emax32 (xorb s false)
                (Zpos (m * 9227469)) (e + -23) loc_Exact 48 (-46)
                ltac:(lia)) as H.
  assert (Hprod : 0 <= Zpos (m * 9227469) < 2 ^ 48).
  { split; [lia|]. rewrite Pos2Z.inj_mul.
    change (2 ^ 48) with (2 ^ 24 * 2 ^ 24).
    assert (9227469 < 2 ^ 24) by (vm_compute; reflexivity). nia. }
  specialize (H Hprod ltac:(lia) ltac:(vm_compute; discriminate)).
  destruct (binary_round_aux prec32 emax32 (xorb s false)
              (Zpos (m * 9227469)) (e + -23) loc_Exact);
    try contradiction; reflexivity.
Qed.

Lemma fold_minimum_in (rest : list float32) :
  forall x, In (fold_left Np.minimum rest x) (x :: rest).
Proof.
  induction rest as [|y rest IH]; intros x; simpl.
  - left. reflexivity.
  - destruct (IH (Np.minimum x y)) as [H | H].
    + rewrite <- H. unfold Np.minimum.
      destruct (SFltb x y || is_nan x); [left | right; left]; reflexivity.
    + right. right. exact H.
Qed.

Lemma fold_maximum_in (rest : list float32) :
  forall x, In (fold_left Np.maximum rest x) (x :: rest).
Proof.
  induction rest as [|y rest IH]; intros x; simpl.
  - left. reflexivity.
  - destruct (IH (Np.maximum x y)) as [H | H].
    + rewrite <- H. unfold Np.maximum.
      destruct (SFltb y x || is_nan x); [left | right; left]; reflexivity.
    + right. right. exact H.
Qed.

(** The axis limits of a non-empty normalised buffer exist and are
    finite. *)
Lemma ylim_normalized (samples : list float32) :
  samples <> [] ->
  Forall (fun x => normalized_amplitude x = true) samples ->
  exists lo hi, ylim samples = inr (lo, hi)
    /\ is_finite lo = true /\ is_finite hi = true.
Proof.
  intros Hne Hall. destruct samples as [|x rest]; [contradiction|].
  rewrite Forall_forall in Hall.
  exists (mul32 (fold_left Np.minimum rest x) lit32_1_1),
         (mul32 (fold_left Np.maximum rest x) lit32_1_1).
  split; [reflexivity|].
  split; apply scaled_limit_finite, Hall;
    [apply fold_minimum_in | apply fold_maximum_in].
Qed.

End RoundingFacts.

(** ** How far a rounded value lies from the exact one *)

Module RoundingValue.

Import RoundingFacts.

Section Value.

Variables prec emax : Z.

Hypothesis Hprec : 2 <= prec.

Lemma shr_1_value (r : shr_record) : 0 <= shr_m r -> shr_m (shr_1 r) = shr_m r / 2.
Proof.
  destruct r as [m b1 b2]. simpl. intros Hm.
  destruct m as [|p|p]; [reflexivity | | lia].
  destruct p as [p|p|]; simpl.
  - rewrite Pos2Z.inj_xI. apply (Z.div_unique _ _ _ 1); lia.
  - rewrite Pos2Z.inj_xO. apply (Z.div_unique _ _ _ 0); lia.
  - reflexivity.
Qed.

Lemma iter_shr_1_value (p : positive) :
  forall r, 0 <= shr_m r -> shr_m (iter_pos shr_1 p r) = shr_m r / 2 ^ Zpos p.
Proof.
  induction p as [p IH | p IH |]; intros r Hr; simpl iter_pos.
  - pose proof (shr_1_bounds r Hr) as H1.
    pose proof (iter_shr_1_bounds p _ (proj1 H1)) as H2.
    rewrite (IH _ (proj1 H2)), (IH _ (proj1 H1)), (shr_1_value r Hr).
    rewrite !Z.div_div by (try apply Z.pow_pos_nonneg; lia).
    f_equal. replace (Zpos p~1) with (1 + Zpos p + Zpos p) by lia.
    rewrite !Z.pow_add_r by lia. lia.
  - pose proof (iter_shr_1_bounds p _ Hr) as H2.
    rewrite (IH _ (proj1 H2)), (IH _ Hr).
    rewrite !Z.div_div by (try apply Z.pow_pos_nonneg; lia).
    f_equal. replace (Zpos p~0) with (Zpos p + Zpos p) by lia.
    rewrite !Z.pow_add_r by lia. lia.
  - apply shr_1_value. exact Hr.
Qed.

(** Shifting by [n] places divides the mantissa by [2^n]. *)
Lemma shr_value (r : shr_record) (e n : Z) :
  0 <= shr_m r -> 0 <= n ->
  shr_m (fst (shr r e n)) = shr_m r / 2 ^ n /\ snd (shr r e n) = e + n.
Proof.
  intros Hr Hn. unfold shr. destruct n as [|p|p]; simpl fst; simpl snd.
  - rewrite Z.div_1_r. split; lia.
  - split; [apply iter_shr_1_value; exact Hr | reflexivity].
  - lia.
Qed.

Lemma Zdigits2_nonneg (m : Z) : 0 <= Zdigits2 m.
Proof. destruct m; simpl; lia. Qed.

Lemma Zdigits2_spec (m : Z) : 0 < m -> 2 ^ (Zdigits2 m - 1) <= m < 2 ^ Zdigits2 m.
Proof.
  intros Hm. destruct m as [|p|p]; try lia. simpl Zdigits2.
  rewrite digits2_pos_size.
  pose proof (Pos.size_gt p) as Hgt. apply Pos2Z.pos_lt_pos in Hgt.
  rewrite Pos2Z.inj_pow in Hgt.
  pose proof (Pos.size_le p) as Hle. apply Pos2Z.pos_le_pos in Hle.
  rewrite Pos2Z.inj_pow in Hle.
  split; [|exact Hgt].
  replace (Zpos (Pos.size p)) with (Zpos (Pos.size p) - 1 + 1) in Hle by lia.
  rewrite Z.pow_add_r in Hle by lia. change (2 ^ 1) with 2 in Hle. lia.
Qed.

(** A number in [[2^(k-1), 2^k)] has exactly [k] digits. *)
Lemma Zdigits2_exact (m k : Z) : 2 ^ (k - 1) <= m < 2 ^ k -> 0 < k -> Zdigits2 m = k.
Proof.
  intros [Hlo Hhi] Hk.
  assert (Hm : 0 < m) by (pose proof (Z.pow_pos_nonneg 2 (k - 1)); lia).
  pose proof (Zdigits2_spec m Hm) as [Hdlo Hdhi].
  pose proof (Zdigits2_bound m k ltac:(lia) ltac:(lia)) as Hd.
  pose proof (Zdigits2_nonneg m) as Hd0.
  assert (k - 1 < Zdigits2 m) by (apply (Z.pow_lt_mono_r_iff 2); lia).
  lia.
Qed.

(** A mantissa that already has [prec] digits is kept as it is. *)
Lemma binary_round_aux_exact (s : bool) (m : positive) (e : Z) :
  2 ^ (prec - 1) <= Zpos m < 2 ^ prec ->
  3 - emax - prec <= e <= emax - prec ->
  binary_round_aux prec emax s (Zpos m) e loc_Exact = S754_finite s m e.
Proof.
  intros Hm He.
  pose proof (Zdigits2_exact (Zpos m) prec Hm ltac:(lia)) as Hd.
  assert (Hshift : fexp prec emax (Zdigits2 (Zpos m) + e) - e = 0).
  { rewrite Hd. unfold fexp, emin. lia. }
  unfold binary_round_aux, shr_fexp. rewrite Hshift. cbn [shr shr_record_of_loc].
  cbn [shr_m loc_of_shr_record round_nearest_even]. rewrite Hshift.
  cbn [shr shr_record_of_loc shr_m].
  destruct (Z.leb_spec e (emax - prec)); [reflexivity | lia].
Qed.

(** Rounding a mantissa [m] of [d >= prec] digits at exponent [e]: the
    result is finite and, counted in units of [2^e], lies within
    [3 * 2^(d - prec)] of [m]. *)
Lemma binary_round_aux_value (s : bool) (m e : Z) (l : location) :
  2 ^ (prec - 1) <= m ->
  3 - emax - prec <= e ->
  e + (Zdigits2 m - prec) + 1 <= emax - prec ->
  match binary_round_aux prec emax s m e l with
  | S754_finite s' m' e' =>
      s' = s /\ e <= e'
      /\ m - 3 * 2 ^ (Zdigits2 m - prec) < Zpos m' * 2 ^ (e' - e)
         <= m + 2 ^ (Zdigits2 m - prec)
  | _ => False
  end.
Proof.
  intros Hm He Hover.
  assert (Hpow : 0 < 2 ^ (prec - 1)) by (apply Z.pow_pos_nonneg; lia).
  assert (Hmpos : 0 < m) by lia.
  pose proof (Zdigits2_spec m Hmpos) as [Hdlo Hdhi].
  pose proof (Zdigits2_nonneg m) as Hd0.
  set (d := Zdigits2 m) in *.
  assert (Hd : prec <= d).
  { assert (prec - 1 < d) by (apply (Z.pow_lt_mono_r_iff 2); lia). lia. }
  set (n1 := d - prec) in *.
  assert (Hshift1 : fexp prec emax (d + e) - e = n1) by (unfold fexp, emin, n1; lia).
  unfold binary_round_aux, shr_fexp. fold d. rewrite Hshift1.
  pose proof (shr_value (shr_record_of_loc m l) e n1) as Hs1.
  rewrite shr_m_of_loc in Hs1. specialize (Hs1 ltac:(lia) ltac:(lia)).
  destruct (shr (shr_record_of_loc m l) e n1) as [r1 e1]. cbn [fst snd] in Hs1.
  destruct Hs1 as [Hm1 He1].
  set (a := 2 ^ n1) in *.
  assert (Ha : 0 < a) by (apply Z.pow_pos_nonneg; lia).
  assert (Ha1 : a * 2 ^ (prec - 1) = 2 ^ (d - 1)).
  { unfold a. rewrite <- Z.pow_add_r by lia. f_equal. unfold n1. lia. }
  assert (Ha2 : a * 2 ^ prec = 2 ^ d).
  { unfold a. rewrite <- Z.pow_add_r by lia. f_equal. unfold n1. lia. }
  pose proof (Z.mul_div_le m a Ha) as Hdiv1.
  pose proof (Z.mul_succ_div_gt m a Ha) as Hdiv2.
  rewrite <- Hm1 in Hdiv1, Hdiv2.
  set (m1' := shr_m r1) in *.
  assert (Hm1lo : 2 ^ (prec - 1) <= m1').
  { rewrite Hm1. apply Z.div_le_lower_bound; lia. }
  assert (Hm1hi : m1' < 2 ^ prec).
  { rewrite Hm1. apply Z.div_lt_upper_bound; lia. }
  pose proof (round_nearest_even_bounds m1' (loc_of_shr_record r1)) as Hround.
  set (m1 := round_nearest_even m1' (loc_of_shr_record r1)) in *.
  assert (Hm1pos : 0 < m1) by lia.
  pose proof (Zdigits2_spec m1 Hm1pos) as [Hd1lo Hd1hi].
  pose proof (Zdigits2_nonneg m1) as Hd10.
  set (d1 := Zdigits2 m1) in *.
  assert (Hd1 : prec <= d1 <= prec + 1).
  { split.
    - assert (prec - 1 < d1) by (apply (Z.pow_lt_mono_r_iff 2); lia). lia.
    - assert (d1 - 1 <= prec) by (apply (Z.pow_le_mono_r_iff 2); lia). lia. }
  set (n2 := d1 - prec) in *.
  assert (Hshift2 : fexp prec emax (d1 + e1) - e1 = n2) by (unfold fexp, emin, n2; lia).
  rewrite Hshift2.
  pose proof (shr_value (shr_record_of_loc m1 loc_Exact) e1 n2) as Hs2.
  rewrite shr_m_of_loc in Hs2. specialize (Hs2 ltac:(lia) ltac:(lia)).
  destruct (shr (shr_record_of_loc m1 loc_Exact) e1 n2) as [r2 e2]. cbn [fst snd] in Hs2.
  destruct Hs2 as [Hm2 He2].
  set (b := 2 ^ n2) in *.
  assert (Hb : b = 1 \/ b = 2).
  { unfold b. assert (n2 = 0 \/ n2 = 1) as [-> | ->] by lia; [left | right]; reflexivity. }
  assert (Hbpos : 0 < b) by lia.
  pose proof (Z.mul_div_le m1 b Hbpos) as Hdiv3.
  pose proof (Z.mul_succ_div_gt m1 b Hbpos) as Hdiv4.
  rewrite <- Hm2 in Hdiv3, Hdiv4.
  assert (H2 : 2 <= 2 ^ (prec - 1)).
  { change 2 with (2 ^ 1) at 1. apply Z.pow_le_mono_r; lia. }
  assert (Hm2pos : 0 < shr_m r2) by nia.
  destruct (shr_m r2) as [|m'|m'] eqn:Hr2; try lia.
  destruct (Z.leb_spec e2 (emax - prec)); [|lia].
  split; [reflexivity|]. split; [lia|].
  replace (e2 - e) with (n1 + n2) by lia.
  rewrite Z.pow_add_r by lia. fold a b. nia.
Qed.

End Value.

End RoundingValue.

(** ** The output length of [librosa.resample] *)

Module LibrosaLength.

Import RoundingFacts RoundingValue.

Lemma prec64_ok : 2 <= prec64.
Proof. unfold prec64. lia. Qed.

(** [float(z)] is exact below [2^53]: a mantissa of 53 digits. *)
Lemma of_Z64_exact (z : Z) :
  0 < z < 2 ^ 53 ->
  exists m e,
    of_Z64 z = S754_finite false m e
    /\ -52 <= e <= 0 /\ Zpos m = z * 2 ^ (- e) /\ 2 ^ 52 <= Zpos m < 2 ^ 53.
Proof.
  intros Hz. destruct z as [|p|p]; try lia.
  unfold of_Z64, binary_normalize, binary_round.
  pose proof (Zdigits2_spec (Zpos p) ltac:(lia)) as [Hlo Hhi]. simpl Zdigits2 in Hlo, Hhi.
  set (d := Zpos (digits2_pos p)) in *.
  assert (Hd : 1 <= d <= 53).
  { split; [unfold d; lia|].
    assert (d - 1 < 53) by (apply (Z.pow_lt_mono_r_iff 2); lia). lia. }
  assert (Hf : fexp prec64 emax64 (d + 0) = d - 53)
    by (unfold fexp, emin, prec64, emax64; lia).
  rewrite Hf.
  pose proof (shl_align_bounds p 0 (d - 53)) as [Hez Hmz].
  destruct (shl_align p 0 (d - 53)) as [mz ez]. cbn [fst snd] in Hez, Hmz.
  replace (Z.min 0 (d - 53)) with (d - 53) in Hez, Hmz by lia. subst ez.
  replace (0 - (d - 53)) with (53 - d) in Hmz by lia.
  assert (Hsplit : 2 ^ 52 = 2 ^ (d - 1) * 2 ^ (53 - d)).
  { rewrite <- Z.pow_add_r by lia. f_equal. lia. }
  assert (Hsplit' : 2 ^ 53 = 2 ^ d * 2 ^ (53 - d)).
  { rewrite <- Z.pow_add_r by lia. f_equal. lia. }
  assert (Hpos : 0 < 2 ^ (53 - d)) by (apply Z.pow_pos_nonneg; lia).
  assert (Hrange : 2 ^ 52 <= Zpos mz < 2 ^ 53).
  { rewrite Hmz, Hsplit, Hsplit'. split; nia. }
  exists mz, (d - 53). split.
  - apply (binary_round_aux_exact prec64 emax64 prec64_ok); [exact Hrange|].
    unfold prec64, emax64. lia.
  - split; [lia|]. split; [|exact Hrange].
    rewrite Hmz. f_equal. f_equal. lia.
Qed.

(** The rounded ratio of two such numbers, counted in units of
    [2^(et - eo - 53)], against the exact ratio [T / mo]. *)
Lemma ratio_value (mt mo : positive) (et eo : Z) :
  2 ^ 52 <= Zpos mt < 2 ^ 53 ->
  2 ^ 52 <= Zpos mo < 2 ^ 53 ->
  -52 <= et <= 0 ->
  -52 <= eo <= 0 ->
  exists mF eF,
    div64 (S754_finite false mt et) (S754_finite false mo eo) = S754_finite false mF eF
    /\ et - eo - 53 <= eF
    /\ Zpos mF * 2 ^ (eF - (et - eo - 53)) < 2 ^ 55
    /\ (2 ^ 52 - 4) * (Zpos mt * 2 ^ 53)
       <= 2 ^ 52 * (Zpos mF * 2 ^ (eF - (et - eo - 53)) * Zpos mo)
       <= (2 ^ 52 + 1) * (Zpos mt * 2 ^ 53).
Proof.
  intros Hmt Hmo Het Heo.
  pose proof (Zdigits2_exact (Zpos mt) 53 Hmt ltac:(lia)) as Hdt.
  pose proof (Zdigits2_exact (Zpos mo) 53 Hmo ltac:(lia)) as Hdo.
  unfold div64, SFdiv, SFdiv_core_binary. cbn [xorb]. rewrite Hdt, Hdo.
  assert (He' : Z.min (fexp prec64 emax64 (53 + et - (53 + eo))) (et - eo) = et - eo - 53)
    by (unfold fexp, emin, prec64, emax64; lia).
  rewrite He'. set (e' := et - eo - 53) in *.
  replace (et - eo - e') with 53 by (unfold e'; lia).
  rewrite Z.shiftl_mul_pow2 by lia.
  set (T := Zpos mt * 2 ^ 53) in *.
  assert (HT : 2 ^ 52 * 2 ^ 53 <= T < 2 ^ 53 * 2 ^ 53) by (unfold T; lia).
  destruct (Z.div_eucl T (Zpos mo)) as [q r] eqn:Hqr.
  assert (Hq : q = T / Zpos mo) by (unfold Z.div; rewrite Hqr; reflexivity).
  pose proof (Z.mul_div_le T (Zpos mo) ltac:(lia)) as Hq1.
  pose proof (Z.mul_succ_div_gt T (Zpos mo) ltac:(lia)) as Hq2.
  rewrite <- Hq in Hq1, Hq2.
  assert (Hqlo : 2 ^ 52 <= q) by (rewrite Hq; apply Z.div_le_lower_bound; lia).
  assert (Hqhi : q < 2 ^ 54).
  { rewrite Hq. apply Z.div_lt_upper_bound; [lia|].
    change (2 ^ 54) with (2 * 2 ^ 53). lia. }
  pose proof (Zdigits2_bound q 54 ltac:(lia) ltac:(lia)) as Hdq.
  pose proof (Zdigits2_spec q ltac:(lia)) as [Hdqlo _].
  pose proof (binary_round_aux_value prec64 emax64 prec64_ok false q e' (new_location (Zpos mo) r))
    as Hround.
  change (prec64 - 1) with 52 in Hround.
  specialize (Hround Hqlo ltac:(unfold prec64, emax64, e'; lia)
                ltac:(unfold prec64, emax64, e'; lia)).
  destruct (binary_round_aux prec64 emax64 false q e' (new_location (Zpos mo) r))
    as [s | s | | s mF eF]; try contradiction.
  destruct Hround as (-> & HeF & Hlo & Hhi).
  change (Zdigits2 q - prec64) with (Zdigits2 q - 53) in Hlo, Hhi.
  set (a := 2 ^ (Zdigits2 q - 53)) in *.
  assert (Hdq53 : 53 <= Zdigits2 q).
  { pose proof (Zdigits2_spec q ltac:(lia)) as [_ Hup].
    pose proof (Zdigits2_nonneg q).
    assert (52 < Zdigits2 q) by (apply (Z.pow_lt_mono_r_iff 2); lia). lia. }
  assert (Ha : a * 2 ^ 52 = 2 ^ (Zdigits2 q - 1)).
  { unfold a. rewrite <- Z.pow_add_r by lia. f_equal. lia. }
  assert (Hapos : 0 < a) by (apply Z.pow_pos_nonneg; lia).
  set (G := Zpos mF * 2 ^ (eF - e')) in *.
  exists mF, eF. split; [reflexivity|]. split; [exact HeF|].
  assert (HD : 2 ^ 52 = 4503599627370496) by reflexivity.
  assert (H53 : 2 ^ 53 = 9007199254740992) by reflexivity.
  assert (H54 : 2 ^ 54 = 18014398509481984) by reflexivity.
  assert (H55 : 2 ^ 55 = 36028797018963968) by reflexivity.
  split; [nia|].
  assert (Hup : 2 ^ 52 * G <= (2 ^ 52 + 1) * q) by nia.
  assert (Hdown : (2 ^ 52 - 3) * q <= 2 ^ 52 * G) by nia.
  assert (HmoT : 2 ^ 52 * Zpos mo <= T) by nia.
  split.
  - transitivity ((2 ^ 52 - 3) * (q * Zpos mo)); [|nia].
    transitivity ((2 ^ 52 - 3) * (T - Zpos mo)); [nia|].
    apply Z.mul_le_mono_nonneg_l; lia.
  - transitivity ((2 ^ 52 + 1) * (q * Zpos mo)); [nia|].
    apply Z.mul_le_mono_nonneg_l; lia.
Qed.

(** The rounded product of [float(n)] and a ratio, counted in units of
    [2^(en + eF)], against the exact product of the mantissas. *)
Lemma product_value (mn mF : positive) (en eF : Z) :
  2 ^ 52 <= Zpos mn < 2 ^ 53 ->
  Zpos mF < 2 ^ 55 ->
  -52 <= en <= 0 ->
  -200 <= eF <= 200 ->
  exists mp ep,
    mul64 (S754_finite false mn en) (S754_finite false mF eF) = S754_finite false mp ep
    /\ en + eF <= ep
    /\ (2 ^ 52 - 3) * (Zpos mn * Zpos mF)
       <= 2 ^ 52 * (Zpos mp * 2 ^ (ep - (en + eF)))
       <= (2 ^ 52 + 1) * (Zpos mn * Zpos mF).
Proof.
  intros Hmn HmF Hen HeF.
  unfold mul64, SFmul. cbn [xorb].
  set (m := Zpos (mn * mF)).
  assert (Hm : m = Zpos mn * Zpos mF) by (unfold m; lia).
  assert (H52 : 2 ^ 52 = 4503599627370496) by reflexivity.
  assert (H53 : 2 ^ 53 = 9007199254740992) by reflexivity.
  assert (H55 : 2 ^ 55 = 36028797018963968) by reflexivity.
  assert (Hmlo : 2 ^ 52 <= m) by nia.
  assert (Hmhi : m < 2 ^ 108).
  { change (2 ^ 108) with (2 ^ 53 * 2 ^ 55). nia. }
  pose proof (Zdigits2_bound m 108 ltac:(lia) ltac:(lia)) as Hd.
  pose proof (Zdigits2_spec m ltac:(lia)) as [Hdlo Hdup].
  pose proof (binary_round_aux_value prec64 emax64 prec64_ok false m (en + eF) loc_Exact)
    as Hround.
  change (prec64 - 1) with 52 in Hround.
  specialize (Hround Hmlo ltac:(unfold prec64, emax64; lia)
                ltac:(unfold prec64, emax64; lia)).
  destruct (binary_round_aux prec64 emax64 false m (en + eF) loc_Exact)
    as [s | s | | s mp ep]; try contradiction.
  destruct Hround as (-> & Hep & Hlo & Hhi).
  change (Zdigits2 m - prec64) with (Zdigits2 m - 53) in Hlo, Hhi.
  assert (Hd53 : 53 <= Zdigits2 m).
  { pose proof (Zdigits2_nonneg m).
    assert (52 < Zdigits2 m) by (apply (Z.pow_lt_mono_r_iff 2); lia). lia. }
  set (b := 2 ^ (Zdigits2 m - 53)) in *.
  assert (Hb : b * 2 ^ 52 = 2 ^ (Zdigits2 m - 1)).
  { unfold b. rewrite <- Z.pow_add_r by lia. f_equal. lia. }
  assert (Hbpos : 0 < b) by (apply Z.pow_pos_nonneg; lia).
  exists mp, ep. split; [reflexivity|]. split; [exact Hep|].
  rewrite <- Hm. set (P := Zpos mp * 2 ^ (ep - (en + eF))) in *.
  split; nia.
Qed.

(** The ceiling of a positive value [m * 2^e], scaled by [2^K]. *)
Lemma ceil_spec (m : positive) (e K : Z) :
  0 <= K -> 0 <= e + K ->
  exists L,
    ceil (S754_finite false m e) = Some L
    /\ (L - 1) * 2 ^ K < Zpos m * 2 ^ (e + K) <= L * 2 ^ K.
Proof.
  intros HK HeK. unfold ceil. cbn [negb cond_Zopp].
  eexists. split; [reflexivity|].
  assert (HKpos : 0 < 2 ^ K) by (apply Z.pow_pos_nonneg; lia).
  destruct (Z.le_gt_cases 0 e) as [He | He].
  - rewrite Z.shiftl_mul_pow2 by lia. rewrite Z.pow_add_r by lia.
    assert (0 < 2 ^ e) by (apply Z.pow_pos_nonneg; lia). nia.
  - rewrite Z.shiftl_div_pow2 by lia.
    set (c := 2 ^ (- e)).
    assert (Hc : 0 < c) by (apply Z.pow_pos_nonneg; lia).
    assert (HKc : 2 ^ K = c * 2 ^ (e + K)).
    { unfold c. rewrite <- Z.pow_add_r by lia. f_equal. lia. }
    assert (Hk : 0 < 2 ^ (e + K)) by (apply Z.pow_pos_nonneg; lia).
    pose proof (Z.mul_div_le (- Zpos m) c Hc) as H1.
    pose proof (Z.mul_succ_div_gt (- Zpos m) c Hc) as H2.
    set (f := - Zpos m / c) in *. rewrite HKc. nia.
Qed.

(** From the two rounding errors to the length: all quantities scaled to
    integers. *)
Lemma length_from_errors (D T mo mn G Pd W nt o S2 L : Z) :
  8 <= D -> 0 < T -> 0 < mo -> 0 < mn -> 0 < W -> 0 < nt -> 0 < o ->
  (D - 4) * T <= D * (G * mo) <= (D + 1) * T ->
  (D - 3) * (mn * G) <= D * Pd <= (D + 1) * (mn * G) ->
  mn * T = nt * W ->
  S2 * mo = o * W ->
  8 * nt <= D ->
  (L - 1) * S2 < Pd <= L * S2 ->
  nt <= L * o <= nt + o.
Proof.
  intros HD HT Hmo Hmn HW Hnt Ho [HG1 HG2] [HP1 HP2] HE HS Hsmall [HL1 HL2].
  set (E := mn * T) in *.
  assert (HG : 0 < G) by nia.
  assert (Hup2 : D * (D * (Pd * mo)) <= (D + 1) * ((D + 1) * E)).
  { transitivity ((D + 1) * (mn * (D * (G * mo)))); [nia|].
    apply Z.mul_le_mono_nonneg_l; [lia|]. unfold E. nia. }
  assert (Hdown2 : (D - 3) * ((D - 4) * E) <= D * (D * (Pd * mo))).
  { transitivity ((D - 3) * (mn * (D * (G * mo)))); [|nia].
    apply Z.mul_le_mono_nonneg_l; [lia|]. unfold E. nia. }
  assert (HEpos : 0 < E) by (unfold E; nia).
  assert (Hup : D * (Pd * mo - E) <= 3 * E) by nia.
  assert (Hdown : D * (E - Pd * mo) <= 7 * E) by nia.
  assert (Hclose : E - W < Pd * mo < E + W) by nia.
  assert (HLW : L * S2 * mo = L * o * W) by (rewrite <- Z.mul_assoc, HS; ring).
  assert (HLW1 : (L - 1) * S2 * mo = (L - 1) * o * W) by (rewrite <- Z.mul_assoc, HS; ring).
  split.
  - assert (H1 : Pd * mo <= L * S2 * mo) by (apply Z.mul_le_mono_nonneg_r; lia).
    assert (H2 : (nt - 1) * W < L * o * W) by lia.
    apply Z.mul_lt_mono_pos_r in H2; lia.
  - assert (H1 : (L - 1) * S2 * mo < Pd * mo) by (apply Z.mul_lt_mono_pos_r; lia).
    assert (H2 : (L - 1) * o * W < (nt + 1) * W) by lia.
    apply Z.mul_lt_mono_pos_r in H2; lia.
Qed.

(** The length that librosa computes is the exact quotient rounded up, or
    one more. *)
Lemma librosa_n_samples_bounds (n orig_sr target_sr : Z) :
  0 <= n ->
  0 < orig_sr < 2 ^ 53 ->
  0 < target_sr < 2 ^ 53 ->
  n * target_sr <= 2 ^ 49 ->
  exists L,
    librosa_n_samples n orig_sr target_sr = inr L
    /\ n * target_sr <= L * orig_sr <= n * target_sr + orig_sr.
Proof.
  intros Hn Ho Ht Hsmall.
  assert (H64 : 2 ^ 53 < 2 ^ 64) by reflexivity.
  unfold librosa_n_samples.
  rewrite (py_float_of_int_bounds target_sr) by lia.
  rewrite (py_float_of_int_bounds orig_sr) by lia.
  cbn [Py.bind].
  destruct (of_Z64_exact target_sr Ht) as (mt & et & -> & Het & Hmt & Hmtr).
  destruct (of_Z64_exact orig_sr Ho) as (mo & eo & -> & Heo & Hmo & Hmor).
  cbn [is_zero Py.bind Py.ret].
  destruct (ratio_value mt mo et eo Hmtr Hmor Het Heo) as (mF & eF & -> & HeF & HG55 & HG).
  destruct (Z.eq_dec n 0) as [-> | Hn0].
  - exists 0. split; [reflexivity | lia].
  - assert (Hnr : 0 < n < 2 ^ 53).
    { split; [lia|]. assert (2 ^ 49 < 2 ^ 53) by reflexivity. nia. }
    rewrite (py_float_of_int_bounds n) by lia. cbn [Py.bind].
    destruct (of_Z64_exact n Hnr) as (mn & en & -> & Hen & Hmn & Hmnr).
    set (e' := et - eo - 53) in *.
    assert (Hd0 : 0 <= eF - e' < 55).
    { split; [lia|].
      apply (Z.pow_lt_mono_r_iff 2); [lia | lia |].
      assert (0 < 2 ^ (eF - e')) by (apply Z.pow_pos_nonneg; lia). nia. }
    assert (HmF : Zpos mF < 2 ^ 55).
    { assert (1 <= 2 ^ (eF - e')) by (pose proof (Z.pow_pos_nonneg 2 (eF - e')); lia). nia. }
    destruct (product_value mn mF en eF Hmnr HmF Hen ltac:(unfold e' in *; lia))
      as (mp & ep & -> & Hep & HP).
    set (S := 53 + eo - en - et).
    destruct (ceil_spec mp ep S ltac:(unfold S; lia) ltac:(unfold S, e' in *; lia))
      as (L & -> & HL).
    exists L. split; [reflexivity|].
    set (d := eF - e') in *.
    assert (Hdpos : 0 < 2 ^ d) by (apply Z.pow_pos_nonneg; lia).
    set (W := 2 ^ 53 * 2 ^ (- en) * 2 ^ (- et)).
    assert (HWpos : 0 < W).
    { unfold W. apply Z.mul_pos_pos; [apply Z.mul_pos_pos; [reflexivity|]|];
        apply Z.pow_pos_nonneg; lia. }
    apply (length_from_errors (2 ^ 52) (Zpos mt * 2 ^ 53) (Zpos mo) (Zpos mn)
             (Zpos mF * 2 ^ d) (Zpos mp * 2 ^ (ep + S)) W (n * target_sr) orig_sr (2 ^ S) L).
    + assert (2 ^ 52 = 4503599627370496) by reflexivity. lia.
    + lia.
    + lia.
    + lia.
    + exact HWpos.
    + nia.
    + lia.
    + exact HG.
    + replace (ep + S) with (ep - (en + eF) + d) by (unfold S, d, e'; lia).
      rewrite Z.pow_add_r by lia.
      set (P := Zpos mp * 2 ^ (ep - (en + eF))) in *.
      replace (Zpos mp * (2 ^ (ep - (en + eF)) * 2 ^ d)) with (P * 2 ^ d) by (unfold P; ring).
      replace (Zpos mn * (Zpos mF * 2 ^ d)) with (Zpos mn * Zpos mF * 2 ^ d) by ring.
      split; nia.
    + rewrite Hmn, Hmt. unfold W. ring.
    + assert (HSW : 2 ^ S * 2 ^ (- eo) = W).
      { unfold W, S. rewrite <- !Z.pow_add_r by lia. f_equal. lia. }
      rewrite Hmo, <- HSW. ring.
    + assert (2 ^ 52 = 8 * 2 ^ 49) by reflexivity. lia.
    + exact HL.
Qed.

End LibrosaLength.

(** ** [generate_waveform_gif] *)

Section Visualizer.

Variable np_linspace : float64 -> float64 -> Z -> list float64.

(** C9: on an empty buffer [generate_waveform_gif] raises before any
    frame exists, whatever the rate and the window: unless the rate is
    zero or the window is not finite, which raise earlier, the error is
    that of [np.min] on an empty array. *)
Theorem generate_waveform_gif_empty (sample_rate : Z) (duration : float64) :
  generate_waveform_gif np_linspace [] sample_rate duration
  = if sample_rate =? 0 then
      raise ZeroDivisionError (of_string "division by zero")
    else if is_finite duration then
      raise ValueError
        (of_string "zero-size array to reduction operation minimum which has no identity")
    else raise ValueError (of_string "Axis limits cannot be NaN or Inf").
Proof.
  unfold generate_waveform_gif, py_truediv_int, validate_limit.
  destruct (sample_rate =? 0); [reflexivity|].
  simpl. destruct (is_finite duration); reflexivity.
Qed.

Lemma length_range (n : nat) : List.length (range n) = n.
Proof. unfold range. rewrite length_map. apply length_seq. Qed.

Lemma nth_range (n : nat) (i d : Z) :
  0 <= i < Z.of_nat n -> nth (Z.to_nat i) (range n) d = i.
Proof.
  intros Hi. unfold range.
  rewrite (nth_indep _ d (Z.of_nat 0)) by (rewrite length_map, length_seq; lia).
  rewrite map_nth, seq_nth by lia. lia.
Qed.

(** Once the set-up of [generate_waveform_gif] goes through (a non-zero
    rate, a finite window, a non-empty buffer with finite axis limits [lo]
    and [hi], a frame size [spf] and a non-zero frame duration), exactly
    100 frames are rendered, whatever the length of the buffer; frame [i]
    shows [samples[i * spf : end]] with [end] clamped to the length of the
    buffer, a segment of the buffer that is empty for every frame starting
    at or past its end. *)
Lemma frames_of_setup (samples : list float32) (sample_rate : Z)
  (duration : float64) (lo hi : float32) (spf : Z) :
  sample_rate <> 0 ->
  is_finite duration = true ->
  ylim samples = inr (lo, hi) ->
  is_finite lo = true ->
  is_finite hi = true ->
  samples_per_frame sample_rate duration = inr spf ->
  is_zero (frame_duration duration) = false ->
  exists time rendered,
    generate_waveform_gif np_linspace samples sample_rate duration = inr rendered
    /\ List.length rendered = 100%nat
    /\ forall frame, 0 <= frame < 100 ->
         let end_idx := Z.min ((frame + 1) * spf) (len samples) in
         nth (Z.to_nat frame) rendered ([], []) = update time samples spf frame
         /\ snd (update time samples spf frame) = slice samples (frame * spf) end_idx
         /\ end_idx <= len samples
         /\ (exists before after,
                samples = before ++ snd (update time samples spf frame) ++ after)
         /\ (len samples <= frame * spf -> snd (update time samples spf frame) = []).
Proof.
  intros Hrate Hduration Hylim Hlo Hhi Hspf Hfd.
  unfold generate_waveform_gif, py_truediv_int, validate_limit, py_truediv_int_float.
  destruct (Z.eqb_spec sample_rate 0) as [E | _]; [contradiction|].
  rewrite Hduration, Hylim, Hfd.
  cbv beta iota delta [Py.bind Py.ret fst snd]. rewrite Hlo, Hhi, Hspf.
  change (py_float_of_int 1) with (@inr exn float64 (of_Z64 1)).
  cbv beta iota.
  set (time := np_linspace (of_Z64 0) (div64 (of_Z64 (len samples)) (of_Z64 sample_rate))
                 (len samples)).
  exists time, (map (update time samples spf) (range frames)).
  split; [reflexivity|].
  split; [rewrite length_map; apply length_range|].
  intros frame Hframe. cbv zeta.
  split.
  { rewrite (nth_indep _ _ (update time samples spf 0)) by (rewrite length_map, length_range; unfold frames; lia).
    rewrite map_nth. rewrite nth_range by (unfold frames; lia). reflexivity. }
  split; [reflexivity|].
  split; [apply Z.le_min_r|].
  split.
  { destruct (slice_segment samples (frame * spf) (Z.min ((frame + 1) * spf) (len samples)))
      as (before & after & Hseg & _).
    exists before, after. exact Hseg. }
  intros Hpast. apply slice_past_end. exact Hpast.
Qed.

(** C4, amended: for every non-empty buffer of normalised samples (valid
    binary32 values within [-1, 1]), every sample rate from 1 to
    [2^64 - 1] and the default 5-second window, [generate_waveform_gif]
    renders exactly 100 frames, whatever the length of the buffer; with
    [spf] the frame size, frame [i] shows [samples[i * spf : end]] with
    [end] clamped to the length of the buffer, a segment of the buffer
    that is empty for every frame starting at or past its end; [update]
    is total. *)
Theorem generate_waveform_gif_frames (samples : list float32) (sample_rate : Z) :
  samples <> [] ->
  Forall (fun x => normalized_amplitude x = true) samples ->
  0 < sample_rate < 2 ^ 64 ->
  exists time spf rendered,
    generate_waveform_gif np_linspace samples sample_rate default_duration = inr rendered
    /\ samples_per_frame sample_rate default_duration = inr spf
    /\ List.length rendered = 100%nat
    /\ forall frame, 0 <= frame < 100 ->
         let end_idx := Z.min ((frame + 1) * spf) (len samples) in
         nth (Z.to_nat frame) rendered ([], []) = update time samples spf frame
         /\ snd (update time samples spf frame) = slice samples (frame * spf) end_idx
         /\ end_idx <= len samples
         /\ (exists before after,
                samples = before ++ snd (update time samples spf frame) ++ after)
         /\ (len samples <= frame * spf -> snd (update time samples spf frame) = []).
Proof.
  intros Hne Hnorm Hrate.
  destruct (RoundingFacts.ylim_normalized samples Hne Hnorm) as (lo & hi & Hylim & Hlo & Hhi).
  destruct (RoundingFacts.samples_per_frame_total sample_rate Hrate) as (spf & Hspf).
  destruct (frames_of_setup samples sample_rate default_duration lo hi spf
              ltac:(lia) eq_refl Hylim Hlo Hhi Hspf eq_refl)
    as (time & rendered & Hrun & Hlen & Hframes).
  exists time, spf, rendered. repeat split; try assumption; apply Hframes; assumption.
Qed.

End Visualizer.

Lemma demo_short_buffer_normalized :
  Forall (fun x => normalized_amplitude x = true) Demo.short_buffer.
Proof. repeat (constructor; [vm_compute; reflexivity|]). constructor. Qed.

Lemma generate_waveform_gif_frames_witness :
  exists rendered,
    Demo.generate_waveform_gif Demo.short_buffer 60 default_duration = inr rendered
    /\ List.length rendered = 100%nat
    /\ snd (nth 3 rendered ([], [])) = [div32 (of_Z32 (-4096)) (of_Z32 (2 ^ 15))]
    /\ snd (nth 4 rendered ([], [])) = [].
Proof.
  destruct (generate_waveform_gif_frames Demo.linspace Demo.short_buffer 60
              ltac:(discriminate) demo_short_buffer_normalized ltac:(lia))
    as (time & spf & rendered & Hrun & Hspf & Hlen & Hframes).
  assert (E : spf = 3) by (vm_compute in Hspf; congruence). subst spf.
  exists rendered. split; [exact Hrun|]. split; [exact Hlen|].
  split.
  - destruct (Hframes 3 ltac:(lia)) as (Hnth & Hslice & _).
    change (Z.to_nat 3) with 3%nat in Hnth. rewrite Hnth, Hslice. reflexivity.
  - destruct (Hframes 4 ltac:(lia)) as (Hnth & Hslice & _).
    change (Z.to_nat 4) with 4%nat in Hnth. rewrite Hnth, Hslice. reflexivity.
Defined.

(** C4 as stated fails: on an empty buffer no frame is rendered. *)
Lemma generate_waveform_gif_empty_no_frames :
  ~ exists rendered,
      Demo.generate_waveform_gif [] 22050 default_duration = inr rendered
      /\ List.length rendered = 100%nat.
Proof.
  intros (rendered & Hrun & _). discriminate Hrun.
Qed.

(** ** [resample_audio]: the length of the output *)

Section ResampleAudioLength.

Variable librosa_resample : list float32 -> Z -> Z -> result (list float32).

(** C3, amended: when the rates are positive, differ and lie below
    [2^53], [len samples * target_sr] is at most [2^49], and librosa
    returns a buffer of the [n_samples] samples it computes,
    [resample_audio] returns that buffer paired with [target_sr], and its
    length lies between [len samples * target_sr / orig_sr] and that
    quotient plus one, both included. *)
Theorem resample_audio_length_within_one (samples resampled : list float32)
  (orig_sr target_sr : Z) :
  0 < orig_sr < 2 ^ 53 ->
  0 < target_sr < 2 ^ 53 ->
  orig_sr <> target_sr ->
  len samples * target_sr <= 2 ^ 49 ->
  resample_contract librosa_resample samples orig_sr target_sr ->
  librosa_resample samples orig_sr target_sr = inr resampled ->
  resample_audio librosa_resample samples orig_sr target_sr = ret (resampled, target_sr)
  /\ within_one_sample (len resampled) (len samples) orig_sr target_sr.
Proof.
  intros Ho Ht Hne Hsmall Hcontract Hcall. split.
  - unfold resample_audio.
    destruct (Z.eqb_spec orig_sr target_sr) as [E | _]; [contradiction|].
    simpl. rewrite Hcall. reflexivity.
  - destruct (LibrosaLength.librosa_n_samples_bounds (len samples) orig_sr target_sr
                (len_nonneg samples) Ho Ht Hsmall) as (L & HL & Hbounds).
    rewrite (Hcontract resampled Hcall) in HL. injection HL as ->.
    exact Hbounds.
Qed.

End ResampleAudioLength.

Lemma demo_resample_contract (samples : list float32) (orig_sr target_sr : Z) :
  resample_contract Demo.resample_n_samples samples orig_sr target_sr.
Proof.
  intros resampled. unfold Demo.resample_n_samples.
  destruct (librosa_n_samples (len samples) orig_sr target_sr) as [e | n];
    [discriminate|].
  cbn [Py.bind]. destruct (Z.ltb_spec n 0) as [Hneg | Hpos]; [discriminate|].
  intros H. injection H as <-. f_equal.
  unfold len. rewrite length_map, length_range. lia.
Qed.

Lemma resample_audio_length_within_one_witness :
  exists resampled,
    resample_audio Demo.resample_n_samples Demo.short_buffer 20 30 = ret (resampled, 30)
    /\ len resampled = 15
    /\ within_one_sample (len resampled) 10 20 30.
Proof.
  eexists.
  pose proof (resample_audio_length_within_one Demo.resample_n_samples Demo.short_buffer _
                20 30 ltac:(split; reflexivity) ltac:(split; reflexivity)
                ltac:(discriminate) ltac:(discriminate)
                (demo_resample_contract _ _ _) eq_refl) as H.
  split; [exact (proj1 H)|]. split; [reflexivity | exact (proj2 H)].
Defined.

(** C3 as stated fails: [147] samples at 44100 Hz last exactly as long as
    [160] samples at 48000 Hz, yet the length that librosa computes is
    [161], because the ratio [48000 / 44100] is rounded up in binary64; the
    output is a whole sample longer than [len samples * target_sr /
    orig_sr], which no rounding of that quotient gives. *)
Lemma resample_audio_length_one_over :
  exists resampled,
    resample_contract Demo.resample_n_samples (Demo.silence 147) 44100 48000
    /\ resample_audio Demo.resample_n_samples (Demo.silence 147) 44100 48000
       = ret (resampled, 48000)
    /\ 147 * 48000 = 160 * 44100
    /\ len resampled = 161
    /\ ~ within_rounding (len resampled) (len (Demo.silence 147)) 44100 48000.
Proof.
  eexists. split; [apply demo_resample_contract|].
  split; [vm_compute; reflexivity|]. split; [reflexivity|].
  split; [reflexivity|].
  unfold within_rounding. vm_compute. intros H. discriminate H.
Qed.

(** * Further properties *)

(** ** [get_output_filenames]: what the outputs depend on *)

Lemma no_sep_app (a b : str) : ~ In sep a -> ~ In sep b -> ~ In sep (a ++ b).
Proof. intros Ha Hb H. apply in_app_or in H. tauto. Qed.

Lemma no_sep_v2 : ~ In sep (of_string "v2_").
Proof.
  simpl. intros H. repeat (destruct H as [H | H]; [discriminate H|]). exact H.
Qed.

Lemma audio_output_name (p : str) :
  fst (get_output_filenames p) = of_string "sample_data/v2_" ++ basename p.
Proof.
  unfold get_output_filenames. cbn [fst].
  rewrite splitext_ext_basename, splitext_app. reflexivity.
Qed.

Lemma gif_output_name (p : str) :
  snd (get_output_filenames p)
  = of_string "sample_data/v2_" ++ fst (splitext (basename p)) ++ of_string ".gif".
Proof. reflexivity. Qed.

(** The file name of a path under ["sample_data/"]. *)
Lemma basename_sample_data (name : str) :
  ~ In sep name ->
  basename (of_string "sample_data/v2_" ++ name) = of_string "v2_" ++ name.
Proof.
  intros Hname.
  change (of_string "sample_data/v2_" ++ name)
    with ((of_string "sample_data" ++ [sep]) ++ of_string "v2_" ++ name).
  apply basename_dir; [constructor | apply no_sep_app; [exact no_sep_v2 | exact Hname]].
Qed.


(** X1: two inputs get the same pair of output paths exactly when they
    have the same file name. *)
Theorem get_output_filenames_collide (p q : str) :
  get_output_filenames p = get_output_filenames q <-> basename p = basename q.
Proof.
  split.
  - intros H. apply (f_equal fst) in H. rewrite !audio_output_name in H.
    apply app_inv_head in H. exact H.
  - intros H. apply injective_projections.
    + rewrite !audio_output_name, H. reflexivity.
    + rewrite !gif_output_name, H. reflexivity.
Qed.

(** X2: the audio output and the GIF output are the same path exactly
    when the extension of the input is [".gif"]. *)
Theorem get_output_filenames_same_path (p : str) :
  fst (get_output_filenames p) = snd (get_output_filenames p)
  <-> snd (splitext (basename p)) = of_string ".gif".
Proof.
  rewrite gif_output_name. unfold get_output_filenames. cbn [fst].
  rewrite splitext_ext_basename. split.
  - intros H. apply app_inv_head in H. apply app_inv_head in H. exact H.
  - intros ->. reflexivity.
Qed.


(** X4: the audio output keeps the whole file name of the input behind
    the tag, so feeding an output back in stacks the tag:
    [dir/name] gives [sample_data/v2_name], which gives
    [sample_data/v2_v2_name]. *)
Theorem get_output_filenames_stacks (p : str) :
  basename (fst (get_output_filenames p)) = of_string "v2_" ++ basename p
  /\ fst (get_output_filenames (fst (get_output_filenames p)))
     = of_string "sample_data/v2_v2_" ++ basename p.
Proof.
  assert (H : basename (fst (get_output_filenames p)) = of_string "v2_" ++ basename p).
  { rewrite audio_output_name. apply basename_sample_data, basename_no_sep. }
  split; [exact H|].
  rewrite audio_output_name, H. reflexivity.
Qed.

(** ** [load_audio]: failures and pass-through *)

Section LoadAudioMore.

Variable path_exists : str -> bool.

Variable from_file : str -> result AudioSegment.

Variable set_channels : AudioSegment -> Z -> result AudioSegment.

(** X5: [load_audio] fails in two ways only.  On a missing path the
    error is [FileNotFoundError]; on an existing path it is always
    [ValueError] with the message ["Failed to load audio file: "] followed
    by the message of the cause, which is an exception of the decoder or of
    the down-mix of a stereo file, whatever its class. *)
Theorem load_audio_failures (file_path : str) (e : exn) :
  snd (load_audio path_exists from_file set_channels file_path) = inl e ->
  (path_exists file_path = false
   /\ e = Raise FileNotFoundError (of_string "Audio file not found: " ++ file_path))
  \/ (path_exists file_path = true
      /\ exists cause,
           e = Raise ValueError (of_string "Failed to load audio file: " ++ exn_msg cause)
           /\ (from_file file_path = inl cause
               \/ exists decoded, from_file file_path = inr decoded
                    /\ channels decoded = 2 /\ set_channels decoded 1 = inl cause)).
Proof.
  unfold load_audio, decode.
  destruct (path_exists file_path); cbn [negb snd].
  - intros H. right. split; [reflexivity|].
    destruct (from_file file_path) as [cause | decoded] eqn:Hdecode.
    + exists cause. cbn in H. injection H as <-. split; [reflexivity | left; reflexivity].
    + cbn [Py.bind] in H.
      destruct (Z.eqb_spec (channels decoded) 2) as [Hstereo | Hother].
      * destruct (set_channels decoded 1) as [cause | mixed] eqn:Hmix.
        -- exists cause. cbn in H. injection H as <-.
           split; [reflexivity|]. right. exists decoded. repeat split; assumption.
        -- discriminate H.
      * discriminate H.
  - intros H. left. split; [reflexivity|]. cbn in H. injection H as <-. reflexivity.
Qed.

(** X6: a file that is not stereo is never handed to the down-mix: the
    outcome of [load_audio] does not depend on [set_channels], the
    returned handle is the decoded segment itself, and the buffer keeps
    every sample of it, the channels of a multi-channel file
    interleaved. *)
Theorem load_audio_not_stereo (other_set_channels : AudioSegment -> Z -> result AudioSegment)
  (file_path : str) (decoded : AudioSegment) :
  path_exists file_path = true ->
  from_file file_path = inr decoded ->
  channels decoded <> 2 ->
  load_audio path_exists from_file set_channels file_path
  = load_audio path_exists from_file other_set_channels file_path
  /\ snd (load_audio path_exists from_file set_channels file_path)
     = inr (normalize (get_array_of_samples decoded), frame_rate decoded, decoded)
  /\ len (normalize (get_array_of_samples decoded)) = len (get_array_of_samples decoded).
Proof.
  intros Hexists Hdecode Hchannels.
  assert (E : forall sc, load_audio path_exists from_file sc file_path
              = ([OsPathExists file_path; AudioSegmentFromFile file_path],
                 inr (normalize (get_array_of_samples decoded), frame_rate decoded, decoded))).
  { intros sc. unfold load_audio, decode. rewrite Hexists, Hdecode. cbn.
    destruct (Z.eqb_spec (channels decoded) 2) as [H | _]; [contradiction | reflexivity]. }
  rewrite !E. split; [reflexivity|]. split; [reflexivity|].
  unfold normalize, len. rewrite length_map. reflexivity.
Qed.

End LoadAudioMore.

Lemma load_audio_failures_witness :
  snd (Demo.load_audio (of_string "broken.mov"))
  = inl (Raise ValueError
           (of_string "Failed to load audio file: Decoding failed. ffmpeg returned error code: 1"))
  /\ Demo.path_exists (of_string "broken.mov") = true.
Proof.
  split; [reflexivity|].
  destruct (load_audio_failures Demo.path_exists Demo.from_file Demo.set_channels
              (of_string "broken.mov") _ eq_refl) as [[H _] | [H _]].
  - discriminate H.
  - exact H.
Defined.

Lemma load_audio_not_stereo_witness :
  exists samples,
    snd (Demo.load_audio (of_string "surround.wav")) = inr (samples, 48000, Demo.surround_clip)
    /\ len samples = 6.
Proof.
  destruct (load_audio_not_stereo Demo.path_exists Demo.from_file Demo.set_channels
              Demo.set_channels (of_string "surround.wav") Demo.surround_clip
              eq_refl eq_refl ltac:(discriminate)) as (_ & Hrun & Hlen).
  eexists. split; [exact Hrun | exact Hlen].
Defined.

(** ** [load_audio] then [save_audio] *)

Lemma roundtrip_ok_all : check_range roundtrip_ok (-32768) (Z.to_nat 65536) = true.
Proof. vm_compute. reflexivity. Qed.

(** X7: de-normalisation undoes normalisation on 16-bit samples: what
    [save_audio] computes from the buffer that [load_audio] made of the
    samples [zs] is [zs] again, sample for sample. *)
Theorem samples_int16_normalize (zs : list Z) :
  Forall is_int16 zs -> samples_int16 (normalize zs) = zs.
Proof.
  induction 1 as [|z zs Hz _ IH].
  - reflexivity.
  - unfold samples_int16, scale_up, normalize in *. cbn [map]. rewrite IH. f_equal.
    pose proof (check_range_sound _ _ _ roundtrip_ok_all z) as H.
    unfold is_int16 in Hz. specialize (H ltac:(lia)).
    unfold roundtrip_ok in H. apply Z.eqb_eq in H. exact H.
Qed.

Lemma samples_int16_normalize_witness :
  Forall is_int16 [0; 12345; -32768; 32767]
  /\ samples_int16 (normalize [0; 12345; -32768; 32767]) = [0; 12345; -32768; 32767].
Proof.
  assert (H : Forall is_int16 [0; 12345; -32768; 32767]).
  { unfold is_int16. repeat (constructor; [lia|]). constructor. }
  split; [exact H | exact (samples_int16_normalize _ H)].
Defined.

(** ** [save_audio]: the segment handed to the writer *)

Lemma wrap_int16_range (z : Z) : is_int16 (Np.wrap_int16 z).
Proof.
  unfold is_int16, Np.wrap_int16.
  pose proof (Z.mod_pos_bound (z + 32768) 65536 ltac:(lia)). lia.
Qed.

Lemma astype_int16_range (x : float32) : is_int16 (Np.astype_int16 x).
Proof.
  unfold Np.astype_int16.
  destruct (trunc x) as [z|]; [|unfold is_int16; lia].
  destruct ((-2147483648 <=? z) && (z <=? 2147483647)); [apply wrap_int16_range|].
  unfold is_int16. lia.
Qed.

Lemma tobytes_length (a : list Z) : len (Np.tobytes a) = 2 * len a.
Proof.
  unfold Np.tobytes. induction a as [|z a IH]; [reflexivity|].
  cbn [flat_map]. rewrite len_app, IH, len_cons.
  change (len (Np.int16_bytes z)) with 2. lia.
Qed.

Lemma tobytes_bytes (a : list Z) : Forall (fun b => 0 <= b < 256) (Np.tobytes a).
Proof.
  unfold Np.tobytes. induction a as [|z a IH]; [constructor|].
  cbn [flat_map]. apply Forall_app. split; [|exact IH].
  unfold Np.int16_bytes. repeat constructor; apply Z.mod_pos_bound; lia.
Qed.

(** X8: whatever the buffer holds (values beyond [-1, 1], NaN and
    infinities included), the segment that [save_audio] hands to the
    writer is mono, 16-bit, at the given rate, with exactly one two-byte
    frame per sample: every written value fits 16 bits and the duration in
    samples is that of the buffer. *)
Theorem save_audio_segment_shape (samples : list float32) (sample_rate : Z) :
  let segment := save_audio_segment samples sample_rate in
  raw_channels segment = 1
  /\ raw_sample_width segment = 2
  /\ raw_frame_rate segment = sample_rate
  /\ len (samples_int16 samples) = len samples
  /\ Forall is_int16 (samples_int16 samples)
  /\ len (raw_data segment) = raw_sample_width segment * len samples
  /\ Forall (fun b => 0 <= b < 256) (raw_data segment).
Proof.
  assert (Hlen : len (samples_int16 samples) = len samples).
  { unfold samples_int16, scale_up, len. rewrite !length_map. reflexivity. }
  cbv zeta. cbn [save_audio_segment raw_channels raw_sample_width raw_frame_rate raw_data].
  repeat split; try exact Hlen.
  - unfold samples_int16. apply Forall_forall. intros z Hz.
    apply in_map_iff in Hz as (x & <- & _). apply astype_int16_range.
  - rewrite tobytes_length, Hlen. reflexivity.
  - apply tobytes_bytes.
Qed.

(** ** [process_audio]: loading then resampling *)

Section ProcessAudio.

Variable path_exists : str -> bool.

Variable from_file : str -> result AudioSegment.

Variable set_channels : AudioSegment -> Z -> result AudioSegment.

Variable librosa_resample : list float32 -> Z -> Z -> result (list float32).

(** X9: whenever [process_audio] succeeds, the rate it returns is the
    target rate, whether the source was resampled or already had that
    rate, and the handle it returns is the one [load_audio] returned. *)
Theorem process_audio_rate (file_path : str) (target_sr : Z)
  (samples : list float32) (rate : Z) (audio : AudioSegment) :
  snd (process_audio path_exists from_file set_channels librosa_resample file_path target_sr)
  = inr (samples, rate, audio) ->
  rate = target_sr
  /\ exists loaded source_rate,
       snd (load_audio path_exists from_file set_channels file_path)
       = inr (loaded, source_rate, audio).
Proof.
  unfold process_audio.
  destruct (load_audio path_exists from_file set_channels file_path) as [trace loaded].
  cbn [snd]. destruct loaded as [e | [[loaded source_rate] handle]]; cbn [Py.bind].
  - discriminate.
  - unfold resample_audio.
    destruct (Z.eqb_spec source_rate target_sr) as [-> | Hne]; cbn [negb Py.bind].
    + intros H. injection H as <- <- <-. split; [reflexivity|]. eauto.
    + destruct (librosa_resample loaded source_rate target_sr) as [e | resampled];
        cbn [Py.bind]; [discriminate|].
      intros H. injection H as <- <- <-. split; [reflexivity|]. eauto.
Qed.

(** X10: when the file loads at the target rate, [process_audio] is
    [load_audio]: same calls to the outside, same buffer, rate and handle,
    and the resampler has no part in it. *)
Theorem process_audio_at_target_rate
  (other_resample : list float32 -> Z -> Z -> result (list float32))
  (file_path : str) (samples : list float32) (rate : Z) (audio : AudioSegment) :
  snd (load_audio path_exists from_file set_channels file_path) = inr (samples, rate, audio) ->
  process_audio path_exists from_file set_channels librosa_resample file_path rate
  = load_audio path_exists from_file set_channels file_path
  /\ process_audio path_exists from_file set_channels other_resample file_path rate
     = load_audio path_exists from_file set_channels file_path.
Proof.
  intros Hload. unfold process_audio.
  destruct (load_audio path_exists from_file set_channels file_path) as [trace loaded].
  cbn [snd] in Hload. subst loaded. cbn [Py.bind].
  unfold resample_audio. rewrite Z.eqb_refl. split; reflexivity.
Qed.

(** X11: [process_audio] makes the calls to the outside that [load_audio]
    makes and no other, and it fails only with the exception of
    [load_audio] or with the exception of the resampler, passed on as it
    is (the resampler's is not turned into the [ValueError] of a decode
    failure). *)
Theorem process_audio_failures (file_path : str) (target_sr : Z) (e : exn) :
  snd (process_audio path_exists from_file set_channels librosa_resample file_path target_sr)
  = inl e ->
  fst (process_audio path_exists from_file set_channels librosa_resample file_path target_sr)
  = fst (load_audio path_exists from_file set_channels file_path)
  /\ (snd (load_audio path_exists from_file set_channels file_path) = inl e
      \/ exists samples rate audio,
           snd (load_audio path_exists from_file set_channels file_path)
           = inr (samples, rate, audio)
           /\ rate <> target_sr
           /\ librosa_resample samples rate target_sr = inl e).
Proof.
  unfold process_audio.
  destruct (load_audio path_exists from_file set_channels file_path) as [trace loaded].
  cbn [fst snd]. destruct loaded as [e' | [[samples rate] audio]]; cbn [Py.bind].
  - intros H. injection H as <-. split; [reflexivity | left; reflexivity].
  - unfold resample_audio.
    destruct (Z.eqb_spec rate target_sr) as [-> | Hne]; cbn [negb Py.bind].
    + discriminate.
    + destruct (librosa_resample samples rate target_sr) as [e' | resampled] eqn:Hcall;
        cbn [Py.bind]; [|discriminate].
      intros H. injection H as <-. split; [reflexivity|].
      right. exists samples, rate, audio. repeat split; assumption.
Qed.

End ProcessAudio.

Lemma process_audio_rate_witness :
  exists samples rate audio,
    snd (process_audio Demo.path_exists Demo.from_file Demo.set_channels Demo.resample
           (of_string "sample_data/mmmm.mov") 22050)
    = inr (samples, rate, audio)
    /\ rate = 22050.
Proof.
  do 3 eexists. split; [reflexivity|].
  exact (proj1 (process_audio_rate Demo.path_exists Demo.from_file Demo.set_channels
                  Demo.resample (of_string "sample_data/mmmm.mov") 22050 _ _ _ eq_refl)).
Defined.

Lemma process_audio_at_target_rate_witness :
  process_audio Demo.path_exists Demo.from_file Demo.set_channels Demo.resample
    (of_string "voice.wav") 8000
  = Demo.load_audio (of_string "voice.wav").
Proof.
  exact (proj1 (process_audio_at_target_rate Demo.path_exists Demo.from_file
                  Demo.set_channels Demo.resample Demo.resample
                  (of_string "voice.wav") _ 8000 _ eq_refl)).
Defined.

Lemma process_audio_failures_witness :
  fst (process_audio Demo.path_exists Demo.from_file Demo.set_channels Demo.resample
         (of_string "nowhere.mov") 22050)
  = [OsPathExists (of_string "nowhere.mov")].
Proof.
  exact (proj1 (process_audio_failures Demo.path_exists Demo.from_file Demo.set_channels
                  Demo.resample (of_string "nowhere.mov") 22050 _ eq_refl)).
Defined.

(** ** [generate_waveform_gif]: what the frames show *)

Lemma firstn_add {A} (n m : nat) :
  forall l : list A, firstn (n + m) l = firstn n l ++ firstn m (skipn n l).
Proof.
  induction n as [|n IH]; intros l; [reflexivity|].
  destruct l as [|x l]; simpl.
  - rewrite firstn_nil. reflexivity.
  - rewrite IH. reflexivity.
Qed.

(** [l[a:b] + l[b:c] = l[a:c]] for [0 <= a <= b <= c]. *)
Lemma slice_adjacent {A} (l : list A) (a b c : Z) :
  0 <= a <= b -> b <= c -> slice l a b ++ slice l b c = slice l a c.
Proof.
  intros Hab Hbc. unfold slice. pose proof (len_nonneg l) as Hl.
  rewrite !adjust_index_nonneg by lia.
  set (a' := Z.min a (len l)). set (b' := Z.min b (len l)). set (c' := Z.min c (len l)).
  replace (Z.to_nat (c' - a')) with (Z.to_nat (b' - a') + Z.to_nat (c' - b'))%nat by lia.
  rewrite firstn_add, skipn_skipn.
  replace (Z.to_nat (b' - a') + Z.to_nat a')%nat with (Z.to_nat b') by lia.
  reflexivity.
Qed.

(** Clamping the end of a slice to the length changes nothing. *)
Lemma slice_clamped {A} (l : list A) (a b : Z) :
  0 <= b -> slice l a (Z.min b (len l)) = slice l a b.
Proof.
  intros Hb. unfold slice. pose proof (len_nonneg l).
  rewrite (adjust_index_nonneg (len l) (Z.min b (len l))) by lia.
  rewrite (adjust_index_nonneg (len l) b) by lia.
  replace (Z.min (Z.min b (len l)) (len l)) with (Z.min b (len l)) by lia.
  reflexivity.
Qed.

Lemma range_succ (n : nat) : range (S n) = range n ++ [Z.of_nat n].
Proof. unfold range. rewrite seq_S, map_app. reflexivity. Qed.

(** The sample slices of the first [n] frames, one after the other, are
    the first [n * spf] samples. *)
Lemma frames_concat (time : list float64) (samples : list float32) (spf : Z) (n : nat) :
  0 <= spf ->
  List.concat (map snd (map (update time samples spf) (range n)))
  = slice_to samples (Z.of_nat n * spf).
Proof.
  intros Hspf. induction n as [|n IH].
  - simpl. symmetry. apply slice_to_0.
  - rewrite range_succ, !map_app, concat_app.
    transitivity (slice_to samples (Z.of_nat n * spf)
                  ++ slice samples (Z.of_nat n * spf) ((Z.of_nat n + 1) * spf)).
    + f_equal; [exact IH|]. cbn [map List.concat update snd].
      rewrite app_nil_r. apply slice_clamped. nia.
    + unfold slice_to. rewrite slice_adjacent by nia. f_equal. lia.
Qed.

(** The sign of a rounded number is the sign it was given. *)
Lemma binary_round_aux_sign (prec emax : Z) (s : bool) (m e : Z) (l : location) :
  match binary_round_aux prec emax s m e l with
  | S754_finite s' _ _ => s' = s
  | _ => True
  end.
Proof.
  unfold binary_round_aux.
  destruct (shr_fexp prec emax m e l) as [r1 e1].
  destruct (shr_fexp prec emax _ e1 loc_Exact) as [r2 e2].
  destruct (shr_m r2); trivial.
  destruct (e2 <=? emax - prec); trivial.
Qed.

Lemma trunc_nonneg (x : spec_float) (z : Z) :
  match x with S754_finite s _ _ => s = false | _ => True end ->
  trunc x = Some z -> 0 <= z.
Proof.
  destruct x as [s | s | | s m e]; simpl; try discriminate.
  - intros _ H. injection H as <-. lia.
  - intros -> H. injection H as <-. simpl. apply Z.shiftl_nonneg. lia.
Qed.

(** The frame size of a positive rate is not negative. *)
Lemma samples_per_frame_nonneg (sample_rate spf : Z) :
  0 < sample_rate ->
  samples_per_frame sample_rate default_duration = inr spf -> 0 <= spf.
Proof.
  intros Hsr. unfold samples_per_frame, py_float_of_int.
  change (frame_duration default_duration)
    with (S754_finite false 7205759403792794 (-57)).
  destruct sample_rate as [|p|p]; try lia.
  pose proof (binary_round_aux_sign prec64 emax64 false
                (Zpos (fst (shl_align p 0 (fexp prec64 emax64 (Zpos (digits2_pos p) + 0)))))
                (snd (shl_align p 0 (fexp prec64 emax64 (Zpos (digits2_pos p) + 0))))
                loc_Exact) as Hsign.
  unfold of_Z64, binary_normalize, binary_round.
  destruct (shl_align p 0 (fexp prec64 emax64 (Zpos (digits2_pos p) + 0))) as [mz ez].
  cbn [fst snd] in Hsign.
  destruct (binary_round_aux prec64 emax64 false (Zpos mz) ez loc_Exact)
    as [s | s | | s m e]; cbn [is_finite Py.bind Py.ret]; try discriminate.
  - cbn. intros H. injection H as <-. lia.
  - subst s. unfold py_int_of_float, mul64, SFmul.
    pose proof (binary_round_aux_sign prec64 emax64 (xorb false false)
                  (Zpos (m * 7205759403792794)) (e + -57) loc_Exact) as Hprod.
    destruct (trunc (binary_round_aux prec64 emax64 (xorb false false)
                       (Zpos (m * 7205759403792794)) (e + -57) loc_Exact)) as [z|] eqn:Ht.
    + intros H. injection H as <-. exact (trunc_nonneg _ _ Hprod Ht).
    + destruct (is_nan _); discriminate.
Qed.

(** NaN wins every comparison of the reduction. *)
Lemma fold_minimum_nan (rest : list float32) :
  forall x, is_nan x = true \/ In S754_nan rest ->
  fold_left Np.minimum rest x = S754_nan.
Proof.
  induction rest as [|y rest IH]; intros x H; simpl.
  - destruct H as [H | []]. destruct x; try discriminate H. reflexivity.
  - apply IH. destruct H as [H | [H | H]].
    + left. destruct x; try discriminate H. reflexivity.
    + left. subst y. unfold Np.minimum.
      destruct x as [s | s | | s m e]; reflexivity.
    + right. exact H.
Qed.

Section VisualizerMore.

Variable np_linspace : float64 -> float64 -> Z -> list float64.

(** A successful run returns the frames of [update] on [range(frames)],
    for some frame size. *)
Lemma waveform_frames (samples : list float32) (sample_rate : Z) (duration : float64)
  (rendered : list frame_data) :
  generate_waveform_gif np_linspace samples sample_rate duration = inr rendered ->
  exists spf,
    samples_per_frame sample_rate duration = inr spf
    /\ rendered = map (update (time_axis np_linspace samples sample_rate) samples spf) (range frames).
Proof.
  unfold generate_waveform_gif, py_truediv_int, validate_limit, py_truediv_int_float, time_axis.
  destruct (sample_rate =? 0); [discriminate|]. cbn [Py.bind Py.ret].
  destruct (is_finite duration); [|discriminate]. cbn [Py.bind Py.ret].
  destruct (ylim samples) as [e | limits]; [discriminate|]. cbn [Py.bind Py.ret].
  destruct (is_finite (fst limits)); [|discriminate]. cbn [Py.bind Py.ret].
  destruct (is_finite (snd limits)); [|discriminate]. cbn [Py.bind Py.ret].
  destruct (samples_per_frame sample_rate duration) as [e | spf]; [discriminate|].
  cbn [Py.bind Py.ret].
  destruct (py_float_of_int 1); [discriminate|]. cbn [Py.bind Py.ret].
  destruct (is_zero (frame_duration duration)); [discriminate|].
  intros H. injection H as <-. exists spf. split; reflexivity.
Qed.

(** X12: in a run on a positive sample rate at the default window, the
    sample slices of the 100 frames, one after the other, are exactly the
    first [100 * spf] samples of the buffer for the frame size [spf]: the
    frames neither overlap nor skip a sample, and what lies beyond
    [100 * spf] samples is never shown. *)
Theorem generate_waveform_gif_prefix (samples : list float32) (sample_rate : Z)
  (rendered : list frame_data) :
  0 < sample_rate ->
  generate_waveform_gif np_linspace samples sample_rate default_duration = inr rendered ->
  exists spf,
    samples_per_frame sample_rate default_duration = inr spf
    /\ 0 <= spf
    /\ List.concat (map snd rendered) = slice_to samples (100 * spf).
Proof.
  intros Hsr Hrun.
  destruct (waveform_frames _ _ _ _ Hrun) as (spf & Hspf & ->).
  pose proof (samples_per_frame_nonneg _ _ Hsr Hspf) as Hnonneg.
  exists spf. split; [exact Hspf|]. split; [exact Hnonneg|].
  exact (frames_concat _ samples spf frames Hnonneg).
Qed.

(** X13: when [np.linspace] returns as many points as it is asked for,
    the time slice and the sample slice of every rendered frame have the
    same length, as [line.set_data] needs. *)
Theorem generate_waveform_gif_xy_lengths (samples : list float32) (sample_rate : Z)
  (duration : float64) (rendered : list frame_data) :
  (forall start stop num, 0 <= num -> len (np_linspace start stop num) = num) ->
  generate_waveform_gif np_linspace samples sample_rate duration = inr rendered ->
  Forall (fun frame => len (fst frame) = len (snd frame)) rendered.
Proof.
  intros Hlinspace Hrun.
  destruct (waveform_frames _ _ _ _ Hrun) as (spf & _ & ->).
  apply Forall_forall. intros frame Hin.
  apply in_map_iff in Hin as (i & <- & _).
  assert (Htime : len (time_axis np_linspace samples sample_rate) = len samples).
  { unfold time_axis. apply Hlinspace, len_nonneg. }
  unfold update. cbn [fst snd]. unfold slice. rewrite Htime.
  unfold len. rewrite !length_firstn, !length_skipn.
  unfold len in Htime. lia.
Qed.

(** X14: a buffer that contains a NaN cannot be drawn: with a non-zero
    rate and a finite window, [generate_waveform_gif] raises the
    [ValueError] of the axis limits, and no frame is rendered. *)
Theorem generate_waveform_gif_nan (samples : list float32) (sample_rate : Z)
  (duration : float64) :
  sample_rate <> 0 ->
  is_finite duration = true ->
  In S754_nan samples ->
  generate_waveform_gif np_linspace samples sample_rate duration
  = raise ValueError (of_string "Axis limits cannot be NaN or Inf").
Proof.
  intros Hsr Hduration Hnan.
  unfold generate_waveform_gif, py_truediv_int, validate_limit.
  destruct (Z.eqb_spec sample_rate 0) as [E | _]; [contradiction|].
  cbn [Py.bind Py.ret]. rewrite Hduration. cbn [Py.bind Py.ret].
  destruct samples as [|x rest]; [contradiction|].
  assert (Hmin : fold_left Np.minimum rest x = S754_nan).
  { apply fold_minimum_nan. destruct Hnan as [-> | H]; [left; reflexivity | right; exact H]. }
  unfold ylim, Np.min, Np.max. cbn [Py.bind Py.ret fst]. rewrite Hmin. reflexivity.
Qed.

(** X15: a window of zero seconds is refused after the set-up: on a
    non-empty normalised buffer and a positive rate the frame size is
    computed (it is 0) and the frame rate [1 / frame_duration] then raises
    [ZeroDivisionError]; no frame is rendered. *)
Theorem generate_waveform_gif_zero_window (samples : list float32) (sample_rate : Z)
  (s : bool) :
  samples <> [] ->
  Forall (fun x => normalized_amplitude x = true) samples ->
  0 < sample_rate < 2 ^ 64 ->
  samples_per_frame sample_rate (S754_zero s) = inr 0
  /\ generate_waveform_gif np_linspace samples sample_rate (S754_zero s)
     = raise ZeroDivisionError (of_string "float division by zero").
Proof.
  intros Hne Hnorm Hsr.
  destruct (RoundingFacts.ylim_normalized samples Hne Hnorm) as (lo & hi & Hylim & Hlo & Hhi).
  assert (Hfd : frame_duration (S754_zero s) = S754_zero (xorb s false)) by reflexivity.
  assert (Hspf : samples_per_frame sample_rate (S754_zero s) = inr 0).
  { unfold samples_per_frame. rewrite Hfd.
    rewrite (RoundingFacts.py_float_of_int_bounds _ Hsr). cbn [Py.bind].
    pose proof (RoundingFacts.of_Z64_bounds _ Hsr) as Hr.
    destruct (of_Z64 sample_rate); try contradiction; reflexivity. }
  split; [exact Hspf|].
  unfold generate_waveform_gif, py_truediv_int, validate_limit, py_truediv_int_float.
  destruct (Z.eqb_spec sample_rate 0) as [E | _]; [lia|].
  cbn [Py.bind Py.ret is_finite]. rewrite Hylim. cbn [Py.bind Py.ret fst snd].
  rewrite Hlo, Hhi, Hspf, Hfd. reflexivity.
Qed.

End VisualizerMore.

Lemma low_rates_frame_size :
  check_range
    (fun z => match samples_per_frame z default_duration with
              | inr spf => spf =? 0
              | inl _ => false
              end) 1 19 = true.
Proof. vm_compute. reflexivity. Qed.

(** X16: below 20 Hz the frame size [int(sample_rate * 0.05)] is 0: every
    run at the default window that succeeds renders 100 frames that are
    all empty. *)
Theorem generate_waveform_gif_low_rate (np_linspace : float64 -> float64 -> Z -> list float64)
  (samples : list float32) (sample_rate : Z) (rendered : list frame_data) :
  0 < sample_rate < 20 ->
  generate_waveform_gif np_linspace samples sample_rate default_duration = inr rendered ->
  rendered = repeat ([], []) 100.
Proof.
  intros Hsr Hrun.
  destruct (waveform_frames _ _ _ _ _ Hrun) as (spf & Hspf & ->).
  pose proof (check_range_sound _ _ _ low_rates_frame_size sample_rate ltac:(lia)) as H.
  cbv beta in H. rewrite Hspf in H. apply Z.eqb_eq in H. subst spf.
  assert (Hupdate : forall frame time,
            update time samples 0 frame = (@nil float64, @nil float32)).
  { intros frame time. unfold update. rewrite !Z.mul_0_r.
    pose proof (len_nonneg samples).
    replace (Z.min 0 (len samples)) with 0 by lia.
    fold (slice_to time 0). fold (slice_to samples 0). rewrite !slice_to_0. reflexivity. }
  unfold frames.
  generalize (range 100) (length_range 100). intros l Hl. rewrite <- Hl.
  clear Hl Hrun. induction l as [|i l IH]; [reflexivity|].
  cbn [map List.length repeat]. rewrite Hupdate, IH. reflexivity.
Qed.

Lemma demo_linspace_length (start stop : float64) (num : Z) :
  0 <= num -> len (Demo.linspace start stop num) = num.
Proof.
  intros Hnum. unfold Demo.linspace, len. rewrite length_map, length_range. lia.
Qed.

(** The demonstration buffer is drawn at every positive rate. *)
Lemma demo_run (sample_rate : Z) :
  0 < sample_rate < 2 ^ 64 ->
  exists rendered,
    Demo.generate_waveform_gif Demo.short_buffer sample_rate default_duration = inr rendered.
Proof.
  intros Hsr.
  destruct (RoundingFacts.ylim_normalized Demo.short_buffer ltac:(discriminate)
              demo_short_buffer_normalized) as (lo & hi & Hylim & Hlo & Hhi).
  destruct (RoundingFacts.samples_per_frame_total sample_rate Hsr) as (spf & Hspf).
  destruct (frames_of_setup Demo.linspace Demo.short_buffer sample_rate default_duration
              lo hi spf ltac:(lia) eq_refl Hylim Hlo Hhi Hspf eq_refl)
    as (time & rendered & Hrun & _).
  exists rendered. exact Hrun.
Qed.

Lemma generate_waveform_gif_prefix_witness :
  exists rendered,
    Demo.generate_waveform_gif Demo.short_buffer 40 default_duration = inr rendered
    /\ List.concat (map snd rendered) = Demo.short_buffer.
Proof.
  destruct (demo_run 40 ltac:(lia)) as (rendered & Hrun).
  exists rendered. split; [exact Hrun|].
  destruct (generate_waveform_gif_prefix Demo.linspace Demo.short_buffer 40 rendered
              ltac:(lia) Hrun) as (spf & Hspf & _ & Hconcat).
  assert (E : spf = 2) by (vm_compute in Hspf; congruence). subst spf.
  rewrite Hconcat. reflexivity.
Defined.

Lemma generate_waveform_gif_xy_lengths_witness :
  exists rendered,
    Demo.generate_waveform_gif Demo.short_buffer 60 default_duration = inr rendered
    /\ Forall (fun frame => len (fst frame) = len (snd frame)) rendered.
Proof.
  destruct (demo_run 60 ltac:(lia)) as (rendered & Hrun).
  exists rendered. split; [exact Hrun|].
  exact (generate_waveform_gif_xy_lengths Demo.linspace Demo.short_buffer 60 default_duration
           rendered demo_linspace_length Hrun).
Defined.

Lemma generate_waveform_gif_nan_witness :
  Demo.generate_waveform_gif [of_Z32 0; S754_nan; of_Z32 1] 22050 default_duration
  = raise ValueError (of_string "Axis limits cannot be NaN or Inf").
Proof.
  exact (generate_waveform_gif_nan Demo.linspace [of_Z32 0; S754_nan; of_Z32 1] 22050
           default_duration ltac:(discriminate) eq_refl (or_intror (or_introl eq_refl))).
Defined.

Lemma generate_waveform_gif_zero_window_witness :
  Demo.generate_waveform_gif Demo.short_buffer 60 (S754_zero false)
  = raise ZeroDivisionError (of_string "float division by zero").
Proof.
  exact (proj2 (generate_waveform_gif_zero_window Demo.linspace Demo.short_buffer 60 false
                  ltac:(discriminate) demo_short_buffer_normalized ltac:(lia))).
Defined.

Lemma generate_waveform_gif_low_rate_witness :
  Demo.generate_waveform_gif Demo.short_buffer 10 default_duration
  = inr (repeat ([], []) 100).
Proof.
  destruct (demo_run 10 ltac:(lia)) as (rendered & Hrun). rewrite Hrun. f_equal.
  exact (generate_waveform_gif_low_rate Demo.linspace Demo.short_buffer 10 rendered
           ltac:(lia) Hrun).
Defined.

(** ** [main]: what a run does, in order *)

Section MainRun.

Variable path_exists : str -> bool.

Variable from_file : str -> result AudioSegment.

Variable set_channels : AudioSegment -> Z -> result AudioSegment.

Variable librosa_resample : list float32 -> Z -> Z -> result (list float32).

Variable np_linspace : float64 -> float64 -> Z -> list float64.

Variable export : raw_segment -> str -> str -> result unit.

Variable anim_save : list frame_data -> str -> result unit.

Variable ipd_display : list float32 -> Z -> result unit.

Variable format_2f : float64 -> str.

(** X17: when the hard-coded input is missing, a run of [main] asks
    whether the path exists and prints one line,
    ["Error processing audio: Audio file not found: sample_data/mmmm.mov"];
    nothing is decoded, written, rendered or displayed, and no exception
    leaves [main]. *)
Theorem main_missing_file :
  path_exists main_file_path = false ->
  main path_exists from_file set_channels librosa_resample np_linspace
    export anim_save ipd_display format_2f
  = [Outside (OsPathExists (of_string "sample_data/mmmm.mov"));
     Print (of_string
              "Error processing audio: Audio file not found: sample_data/mmmm.mov")].
Proof.
  intros Hmissing. unfold main, main_body, process_audio, load_audio.
  rewrite Hmissing. reflexivity.
Qed.

(** X18: when the input is processed, [main] stops in [save_audio] at the
    read of [original_audio.format]: the run consists of the calls of
    [load_audio] and one line,
    ["Error processing audio: 'AudioSegment' object has no attribute 'format'"];
    nothing is exported, no GIF is rendered or written, no status line is
    printed, nothing is displayed. *)
Theorem main_stops_at_format (trace : list event) (samples : list float32)
  (rate : Z) (audio : AudioSegment) :
  process_audio path_exists from_file set_channels librosa_resample
    main_file_path default_target_sr
  = (trace, inr (samples, rate, audio)) ->
  main path_exists from_file set_channels librosa_resample np_linspace
    export anim_save ipd_display format_2f
  = map Outside trace
    ++ [Print (of_string
                 "Error processing audio: 'AudioSegment' object has no attribute 'format'")].
Proof.
  intros Hprocess. unfold main, main_body. rewrite Hprocess.
  change (get_output_filenames main_file_path)
    with (of_string "sample_data/v2_mmmm.mov", of_string "sample_data/v2_mmmm.gif").
  unfold save_audio, audio_format, IO.bind, IO.lift. cbn [fst snd raise].
  rewrite app_nil_r. reflexivity.
Qed.


End MainRun.

Lemma main_missing_file_witness :
  DemoRun.main DemoRun.no_file Demo.from_file
  = [Outside (OsPathExists (of_string "sample_data/mmmm.mov"));
     Print (of_string
              "Error processing audio: Audio file not found: sample_data/mmmm.mov")].
Proof.
  exact (main_missing_file DemoRun.no_file Demo.from_file Demo.set_channels Demo.resample
           Demo.linspace DemoRun.export DemoRun.anim_save DemoRun.ipd_display
           DemoRun.format_2f eq_refl).
Defined.

Lemma main_stops_at_format_witness :
  DemoRun.main Demo.path_exists Demo.from_file
  = [Outside (OsPathExists (of_string "sample_data/mmmm.mov"));
     Outside (AudioSegmentFromFile (of_string "sample_data/mmmm.mov"));
     Print (of_string
              "Error processing audio: 'AudioSegment' object has no attribute 'format'")].
Proof.
  exact (main_stops_at_format Demo.path_exists Demo.from_file Demo.set_channels Demo.resample
           Demo.linspace DemoRun.export DemoRun.anim_save DemoRun.ipd_display
           DemoRun.format_2f _ _ 22050 _ eq_refl).
Defined.
